(** * InsightOps: the embedding engine over Milvus

    A shallow embedding of [backend/utils/embeddings.py] (class
    [EmbeddingEngine]).  The engine is glue around three external
    collaborators: the sentence-transformer model, the pymilvus client and
    the [uuid] / [logging] modules.  Every call that leaves the engine is
    an _event_; the collaborators are an environment that answers each call
    from the history of events so far.  A method of the engine is a
    computation that reads the history, appends the events it issues and
    either returns a value or raises a Python exception. *)

From Stdlib Require Import QArith.
From stdpp Require Import base option list strings gmap pretty sorting.

Open Scope string_scope.
Open Scope Z_scope.
Open Scope list_scope.

(** ** Python values *)

(** A Python [float]; only the order of scores is ever used. *)
Definition float : Type := Q.

(** An embedding, [List[float]]. *)
Abbreviation vector := (list float).

(** The values a [Dict[str, Any]] holds here. *)
Inductive pyval : Type :=
| PNone
| PStr (s : string)
| PInt (n : Z).

(** A raised exception: its class and its message. *)
Inductive exn : Type :=
| Exception (cls msg : string).

(** What a call does: return a value, or raise. *)
Inductive result (A : Type) : Type :=
| Return (a : A)
| Raise (e : exn).
Arguments Return {A} a.
Arguments Raise {A} e.

(** ** [backend.config.settings] *)

Record Settings : Type := {
  vector_dimension : Z;
  milvus_uri : string;
  milvus_token : string;
  milvus_collection : string
}.

(** ** pymilvus data *)

Inductive DataType : Type := VARCHAR | FLOAT_VECTOR.

Record FieldSchema : Type := {
  fs_name : string;
  fs_dtype : DataType;
  fs_is_primary : bool;
  fs_max_length : option Z;
  fs_dim : option Z
}.

Record CollectionSchema : Type := {
  cs_fields : list FieldSchema;
  cs_description : string
}.

(** The [index_params] dict of [create_index]. *)
Record IndexParams : Type := {
  ip_metric_type : string;
  ip_index_type : string;
  ip_nlist : Z
}.

(** The [search_params] dict of [search]. *)
Record SearchParams : Type := {
  sp_metric_type : string;
  sp_nprobe : Z
}.

(** A [Collection] object: the client-side proxy of a named collection. *)
Record Collection : Type := { coll_name : string }.

(** A loaded [SentenceTransformer]. *)
Record SentenceTransformer : Type := { st_name : string }.

(** The column batch handed to [Collection.insert]: the four columns
    [id], [document_id], [text], [vector], in schema order. *)
Record Entities : Type := {
  col_id : list string;
  col_document_id : list pyval;
  col_text : list string;
  col_vector : list vector
}.

(** One hit of a search: [hit.id], [hit.score], [hit.entity]. *)
Record Hit : Type := {
  hit_id : string;
  hit_score : float;
  hit_entity : gmap string pyval
}.

(** One formatted result of [EmbeddingEngine.search]:
    [{"id", "text", "score", "metadata": {"document_id"}}]. *)
Record SearchResult : Type := {
  r_id : string;
  r_text : pyval;
  r_score : float;
  r_metadata : gmap string pyval
}.

(** ** Events *)

Inductive level : Type := INFO | ERROR.

(** The pieces of an f-string. *)
Inductive fmt : Type :=
| FStr (s : string)
| FInt (n : Z)
| FExn (e : exn).

Inductive event : Type :=
| ESentenceTransformer (name : string) (r : result SentenceTransformer)
| EEncode (m : SentenceTransformer) (texts : list string)
    (r : result (list vector))
| EConnect (alias uri token : string) (r : result unit)
| EDisconnect (alias : string) (r : result unit)
| EHasCollection (name : string) (r : result bool)
| ECollection (name : string) (schema : option CollectionSchema)
    (r : result Collection)
| ECreateIndex (c : Collection) (field_name : string) (p : IndexParams)
    (r : result unit)
| ELoad (c : Collection) (r : result unit)
| EInsert (c : Collection) (entities : Entities) (r : result unit)
| EFlush (c : Collection) (r : result unit)
| ESearch (c : Collection) (data : list vector) (anns_field : string)
    (param : SearchParams) (limit : Z) (output_fields : list string)
    (r : result (list (list Hit)))
| EUuid4 (s : string)
| ELog (lvl : level) (msg : list fmt).

Abbreviation trace := (list event).

(** ** The environment

    Each collaborator answers from the history of events before the call. *)
Record Env : Type := {
  env_sentence_transformer : trace → string → result SentenceTransformer;
  env_encode : trace → SentenceTransformer → list string → result (list vector);
  env_connect : trace → string → string → string → result unit;
  env_disconnect : trace → string → result unit;
  env_has_collection : trace → string → result bool;
  env_collection :
    trace → string → option CollectionSchema → result Collection;
  env_create_index :
    trace → Collection → string → IndexParams → result unit;
  env_load : trace → Collection → result unit;
  env_insert : trace → Collection → Entities → result unit;
  env_flush : trace → Collection → result unit;
  env_search :
    trace → Collection → list vector → string → SearchParams → Z →
    list string → result (list (list Hit));
  env_uuid4 : trace → string
}.

(** ** Computations

    [m tr] runs [m] after the history [tr]; it gives the outcome and the
    events [m] itself issued, oldest first. *)
Definition M (A : Type) : Type := trace → result A * trace.

Definition ret {A} (a : A) : M A := λ _, (Return a, []).

Definition raise {A} (e : exn) : M A := λ _, (Raise e, []).

Definition bind {A B} (m : M A) (f : A → M B) : M B := λ tr,
  match m tr with
  | (Return a, d) => let '(r, d') := f a (tr ++ d) in (r, d ++ d')
  | (Raise e, d) => (Raise e, d)
  end.

(** [try: body except Exception as e: handler e]. *)
Definition try_except {A} (body : M A) (handler : exn → M A) : M A := λ tr,
  match body tr with
  | (Return a, d) => (Return a, d)
  | (Raise e, d) => let '(r, d') := handler e (tr ++ d) in (r, d ++ d')
  end.

Notation "x <- m ;; k" := (bind m (λ x, k))
  (at level 100, m at next level, right associativity,
   format "'[v' x  <-  m  ;;  '/' k ']'").
Notation "m ;;; k" := (bind m (λ _, k))
  (at level 100, right associativity,
   format "'[v' m  ;;;  '/' k ']'").

(** An external call: ask the environment, record call and answer. *)
Definition call {A} (answer : trace → result A) (ev : result A → event)
  : M A := λ tr, let r := answer tr in (r, [ev r]).

(** [logger.info] and [logger.error]. *)
Definition logger_info (msg : list fmt) : M unit :=
  λ _, (Return (), [ELog INFO msg]).
Definition logger_error (msg : list fmt) : M unit :=
  λ _, (Return (), [ELog ERROR msg]).

(** [len(l)] as a Python [int]. *)
Definition len {A} (l : list A) : Z := Z.of_nat (length l).

Section Engine.

Variable env : Env.
Variable settings : Settings.

(** *** The collaborators' calls *)

Definition SentenceTransformer_new (name : string) : M SentenceTransformer :=
  call (λ tr, env_sentence_transformer env tr name)
       (ESentenceTransformer name).

(** [model.encode(texts, convert_to_numpy=True).tolist()]: the array is
    kept as its rows. *)
Definition model_encode (m : SentenceTransformer) (texts : list string)
  : M (list vector) :=
  call (λ tr, env_encode env tr m texts) (EEncode m texts).

Definition connections_connect (alias uri token : string) : M unit :=
  call (λ tr, env_connect env tr alias uri token) (EConnect alias uri token).

Definition connections_disconnect (alias : string) : M unit :=
  call (λ tr, env_disconnect env tr alias) (EDisconnect alias).

Definition utility_has_collection (name : string) : M bool :=
  call (λ tr, env_has_collection env tr name) (EHasCollection name).

Definition Collection_new (name : string) (schema : option CollectionSchema)
  : M Collection :=
  call (λ tr, env_collection env tr name schema) (ECollection name schema).

Definition collection_create_index (c : Collection) (field_name : string)
  (p : IndexParams) : M unit :=
  call (λ tr, env_create_index env tr c field_name p)
       (ECreateIndex c field_name p).

Definition collection_load (c : Collection) : M unit :=
  call (λ tr, env_load env tr c) (ELoad c).

Definition collection_insert (c : Collection) (entities : Entities) : M unit :=
  call (λ tr, env_insert env tr c entities) (EInsert c entities).

Definition collection_flush (c : Collection) : M unit :=
  call (λ tr, env_flush env tr c) (EFlush c).

Definition collection_search (c : Collection) (data : list vector)
  (anns_field : string) (param : SearchParams) (limit : Z)
  (output_fields : list string) : M (list (list Hit)) :=
  call (λ tr, env_search env tr c data anns_field param limit output_fields)
       (ESearch c data anns_field param limit output_fields).

(** [str(uuid.uuid4())]. *)
Definition uuid4 : M string :=
  λ tr, let s := env_uuid4 env tr in (Return s, [EUuid4 s]).

(** *** [class EmbeddingEngine] *)

Record EmbeddingEngine : Type := {
  model : SentenceTransformer;
  dimension : Z;
  collection : Collection
}.

Definition _connect_milvus : M unit :=
  try_except
    (connections_connect "default" (milvus_uri settings)
       (milvus_token settings) ;;;
     logger_info [FStr "Connected to Milvus successfully"])
    (λ e,
       logger_error [FStr "Failed to connect to Milvus: "; FExn e] ;;;
       raise e).

Definition collection_fields (dim : Z) : list FieldSchema :=
  [ {| fs_name := "id"; fs_dtype := VARCHAR; fs_is_primary := true;
       fs_max_length := Some 100; fs_dim := None |};
    {| fs_name := "document_id"; fs_dtype := VARCHAR; fs_is_primary := false;
       fs_max_length := Some 100; fs_dim := None |};
    {| fs_name := "text"; fs_dtype := VARCHAR; fs_is_primary := false;
       fs_max_length := Some 65535; fs_dim := None |};
    {| fs_name := "vector"; fs_dtype := FLOAT_VECTOR; fs_is_primary := false;
       fs_max_length := None; fs_dim := Some dim |} ].

Definition index_params : IndexParams :=
  {| ip_metric_type := "COSINE"; ip_index_type := "IVF_FLAT";
     ip_nlist := 128 |}.

(** [_init_collection]; the value returned is what the method leaves in
    [self.collection].  [dim] is [self.dimension]. *)
Definition _init_collection (dim : Z) : M Collection :=
  try_except
    (exists_ <- utility_has_collection (milvus_collection settings) ;;
     c <- (if exists_ : bool then
             c <- Collection_new (milvus_collection settings) None ;;
             logger_info [FStr "Using existing collection: ";
                          FStr (milvus_collection settings)] ;;;
             ret c
           else
             let fields := collection_fields dim in
             let schema := {| cs_fields := fields;
                              cs_description := "Document embeddings" |} in
             c <- Collection_new (milvus_collection settings) (Some schema) ;;
             collection_create_index c "vector" index_params ;;;
             logger_info [FStr "Created new collection: ";
                          FStr (milvus_collection settings)] ;;;
             ret c) ;;
     collection_load c ;;;
     logger_info [FStr "Collection loaded into memory"] ;;;
     ret c)
    (λ e,
       logger_error [FStr "Failed to initialize collection: "; FExn e] ;;;
       raise e).

Definition __init__ : M EmbeddingEngine :=
  m <- SentenceTransformer_new "all-MiniLM-L6-v2" ;;
  let dim := vector_dimension settings in
  _connect_milvus ;;;
  c <- _init_collection dim ;;
  ret {| model := m; dimension := dim; collection := c |}.

Definition embed_texts (self : EmbeddingEngine) (texts : list string)
  : M (list vector) :=
  try_except
    (embeddings_list <- model_encode (model self) texts ;;
     logger_info [FStr "Generated "; FInt (len embeddings_list);
                  FStr " embeddings"] ;;;
     ret embeddings_list)
    (λ e,
       logger_error [FStr "Error generating embeddings: "; FExn e] ;;;
       raise e).

(** [[str(uuid.uuid4()) for _ in range(n)]]. *)
Fixpoint uuid4_list (n : nat) : M (list string) :=
  match n with
  | O => ret []
  | S n' => x <- uuid4 ;; xs <- uuid4_list n' ;; ret (x :: xs)
  end.

(** [metadata.get('document_id', 'unknown')]. *)
Definition metadata_document_id (metadata : gmap string pyval) : pyval :=
  default (PStr "unknown") (metadata !! "document_id").

Definition store_embeddings (self : EmbeddingEngine)
  (embeddings : list vector) (texts : list string)
  (metadata : gmap string pyval) : M (list string) :=
  try_except
    (vector_ids <- uuid4_list (length texts) ;;
     let document_id := metadata_document_id metadata in
     let entities :=
       {| col_id := vector_ids;
          col_document_id := replicate (length texts) document_id;
          col_text := texts;
          col_vector := embeddings |} in
     collection_insert (collection self) entities ;;;
     collection_flush (collection self) ;;;
     logger_info [FStr "Stored "; FInt (len vector_ids);
                  FStr " vectors in Milvus"] ;;;
     ret vector_ids)
    (λ e,
       logger_error [FStr "Error storing embeddings in Milvus: "; FExn e] ;;;
       raise e).

(** [hit.entity.get(k)]: [None] when the field is absent. *)
Definition entity_get (h : Hit) (k : string) : pyval :=
  default PNone (hit_entity h !! k).

Definition format_hit (h : Hit) : SearchResult :=
  {| r_id := hit_id h;
     r_text := entity_get h "text";
     r_score := hit_score h;
     r_metadata := {[ "document_id" := entity_get h "document_id" ]} |}.

(** The two nested [for] loops that append to [results]. *)
Definition format_results (search_results : list (list Hit))
  : list SearchResult :=
  concat (map (map format_hit) search_results).

Definition search_params : SearchParams :=
  {| sp_metric_type := "COSINE"; sp_nprobe := 10 |}.

Definition search (self : EmbeddingEngine) (query_text : string) (top_k : Z)
  : M (list SearchResult) :=
  try_except
    (query_embeddings <- embed_texts self [query_text] ;;
     query_embedding <-
       match query_embeddings with
       | q :: _ => ret q
       | [] => raise (Exception "IndexError" "list index out of range")
       end ;;
     search_results <-
       collection_search (collection self) [query_embedding] "vector"
         search_params top_k ["text"; "document_id"] ;;
     let results := format_results search_results in
     logger_info [FStr "Found "; FInt (len results);
                  FStr " results for query"] ;;;
     ret results)
    (λ e,
       logger_error [FStr "Error searching in Milvus: "; FExn e] ;;;
       raise e).

Definition close : M unit :=
  try_except
    (connections_disconnect "default" ;;;
     logger_info [FStr "Disconnected from Milvus"])
    (λ e,
       logger_error [FStr "Error disconnecting from Milvus: "; FExn e]).

End Engine.

(** ** Reading an outcome and a history *)

(** A projection of each returned item. *)
Definition result_map {A B} (f : A → B) (r : result (list A))
  : result (list B) :=
  match r with
  | Return l => Return (f <$> l)
  | Raise e => Raise e
  end.
Notation "f <$$> r" := (result_map f r) (at level 61, left associativity).

(** The exception an event raised, if it did. *)
Definition answer_exn {A} (r : result A) : option exn :=
  match r with
  | Return _ => None
  | Raise e => Some e
  end.

Definition event_raised (ev : event) : option exn :=
  match ev with
  | ESentenceTransformer _ r => answer_exn r
  | EEncode _ _ r => answer_exn r
  | EConnect _ _ _ r => answer_exn r
  | EDisconnect _ r => answer_exn r
  | EHasCollection _ r => answer_exn r
  | ECollection _ _ r => answer_exn r
  | ECreateIndex _ _ _ r => answer_exn r
  | ELoad _ r => answer_exn r
  | EInsert _ _ r => answer_exn r
  | EFlush _ r => answer_exn r
  | ESearch _ _ _ _ _ _ r => answer_exn r
  | EUuid4 _ => None
  | ELog _ _ => None
  end.

(** Some call recorded in [d] raised [e]. *)
Definition raised (e : exn) (d : trace) : Prop :=
  ∃ ev, ev ∈ d ∧ event_raised ev = Some e.

(** A computation surfaces its failures: whenever a call it issued raised,
    the computation raises that exception. *)
Definition surfaces {A} (m : M A) : Prop :=
  ∀ tr e, raised e (m tr).2 → (m tr).1 = Raise e.

(** The values [uuid4] returned in a history. *)
Definition uuids (d : trace) : list string :=
  omap (λ ev, match ev with EUuid4 s => Some s | _ => None end) d.

(** The [n] values [uuid4] returns when asked [n] times in a row after
    the history [tr]. *)
Fixpoint uuid_draws (env : Env) (tr : trace) (n : nat) : list string :=
  match n with
  | O => []
  | S n' =>
      let s := env_uuid4 env tr in
      s :: uuid_draws env (tr ++ [EUuid4 s]) n'
  end.

(** Calls on the vector store that write: insert and flush. *)
Definition is_write (ev : event) : bool :=
  match ev with
  | EInsert _ _ _ | EFlush _ _ => true
  | _ => false
  end.

(** Calls of collection initialization: existence check, create or attach,
    index build, load. *)
Definition is_collection_init (ev : event) : bool :=
  match ev with
  | EHasCollection _ _ | ECollection _ _ _ | ECreateIndex _ _ _ _
  | ELoad _ _ => true
  | _ => false
  end.

(** A call that creates a collection or builds an index. *)
Definition is_create (ev : event) : bool :=
  match ev with
  | ECollection _ (Some _) _ | ECreateIndex _ _ _ _ => true
  | _ => false
  end.

(** A call that creates a collection. *)
Definition is_create_collection (ev : event) : bool :=
  match ev with
  | ECollection _ (Some _) _ => true
  | _ => false
  end.

Definition is_connected (ev : event) : bool :=
  match ev with
  | EConnect _ _ _ (Return _) => true
  | _ => false
  end.

(** The rows of a column batch, as the store reads it. *)
Record Row : Type := {
  row_id : string;
  row_document_id : pyval;
  row_text : string;
  row_vector : vector
}.

Definition rows (e : Entities) : list Row :=
  zip_with (λ '(i, d) '(t, v),
      {| row_id := i; row_document_id := d; row_text := t; row_vector := v |})
    (zip (col_id e) (col_document_id e))
    (zip (col_text e) (col_vector e)).

(** The batch [store_embeddings] builds. *)
Definition batch (ids : list string) (embeddings : list vector)
  (texts : list string) (metadata : gmap string pyval) : Entities :=
  {| col_id := ids;
     col_document_id := replicate (length texts) (metadata_document_id metadata);
     col_text := texts;
     col_vector := embeddings |}.

Definition score_ge (a b : float) : Prop := (b <= a)%Q.

#[global] Instance score_ge_dec a b : Decision (score_ge a b).
Proof.
  unfold score_ge. destruct (Qle_bool b a) eqn:H.
  - left. by apply Qle_bool_iff.
  - right. intros H'%Qle_bool_iff. congruence.
Defined.

(** ** What the claims assume of the collaborators *)

(** A search answers each query vector with one group of at most [limit]
    hits, best score first. *)
Definition ranked (limit : Z) (g : list Hit) : Prop :=
  len g ≤ limit ∧ Sorted (λ a b, score_ge (hit_score a) (hit_score b)) g.

Definition search_contract (env : Env) : Prop :=
  ∀ tr c data f p limit outs groups,
    env_search env tr c data f p limit outs = Return groups →
    length groups = length data ∧ Forall (ranked limit) groups.

(** The model is a function of the text, with outputs of length [dim]. *)
Definition encoder_contract (env : Env) (f : string → vector) (dim : Z)
  : Prop :=
  (∀ s, len (f s) = dim) ∧
  ∀ tr m texts vs, env_encode env tr m texts = Return vs → vs = f <$> texts.

(** The store reports [name] as existing after the history [tr]. *)
Definition exists_in (env : Env) (name : string) (tr : trace) : Prop :=
  env_has_collection env tr name = Return true.

(** A store that stays reachable and keeps its collections. *)
Record reliable (env : Env) (name : string) : Prop := {
  created_exists : ∀ tr schema c,
    exists_in env name (tr ++ [ECollection name (Some schema) (Return c)]);
  exists_persists : ∀ tr tr',
    exists_in env name tr → exists_in env name (tr ++ tr');
  attach_ok : ∀ tr,
    exists_in env name tr → ∃ c, env_collection env tr name None = Return c;
  load_ok : ∀ tr c, exists_in env name tr → env_load env tr c = Return ()
}.

(** ** A reference store

    An in-memory stand-in for the collaborators, computed from the history:
    collections exist once created, inserted rows become visible at the
    next flush, a search ranks the visible rows by inner product, the
    model maps a text to a vector of [dim] numbers, and the n-th uuid is
    built from n.  When [reachable] is false the connection calls raise. *)
Module MemStore.

Definition unreachable : exn :=
  Exception "MilvusException" "Fail connecting to server".

Definition created (name : string) (tr : trace) : bool :=
  existsb (λ ev, match ev with
                 | ECollection n (Some _) (Return _) => bool_decide (n = name)
                 | _ => false
                 end) tr.

Definition aligned (e : Entities) : bool :=
  bool_decide (length (col_id e) = length (col_document_id e)) &&
  bool_decide (length (col_id e) = length (col_text e)) &&
  bool_decide (length (col_id e) = length (col_vector e)).

(** The rows of [c] that a search sees: [pending] were inserted and not
    yet flushed, [visible] were flushed. *)
Fixpoint replay (c : Collection) (tr : trace) (pending visible : list Row)
  : list Row :=
  match tr with
  | [] => visible
  | EInsert c' e (Return _) :: tr' =>
      if bool_decide (coll_name c' = coll_name c)
      then replay c tr' (pending ++ rows e) visible
      else replay c tr' pending visible
  | EFlush c' (Return _) :: tr' =>
      if bool_decide (coll_name c' = coll_name c)
      then replay c tr' [] (visible ++ pending)
      else replay c tr' pending visible
  | _ :: tr' => replay c tr' pending visible
  end.

Definition inner (q v : vector) : float :=
  foldr Qplus (0%Q) (zip_with Qmult q v).

Definition fields_of (r : Row) : gmap string pyval :=
  {[ "text" := PStr (row_text r); "document_id" := row_document_id r ]}.

Definition hit_of (q : vector) (outs : list string) (r : Row) : Hit :=
  {| hit_id := row_id r;
     hit_score := inner q (row_vector r);
     hit_entity := filter (λ kv, kv.1 ∈ outs) (fields_of r) |}.

(** The hits, best score first. *)
Definition best_first (l : list Hit) : list Hit :=
  merge_sort (λ a b, score_ge (hit_score a) (hit_score b)) l.

Definition toy_embedding (dim : nat) (s : string) : vector :=
  resize dim (0%Q) [inject_Z (Z.of_nat (String.length s)); 1%Q].

Definition mem (dim : nat) (reachable : bool) : Env :=
  {| env_sentence_transformer := λ _ name, Return {| st_name := name |};
     env_encode := λ _ _ texts, Return (toy_embedding dim <$> texts);
     env_connect := λ _ _ _ _,
       if reachable then Return () else Raise unreachable;
     env_disconnect := λ _ _,
       if reachable then Return () else Raise unreachable;
     env_has_collection := λ tr name, Return (created name tr);
     env_collection := λ tr name schema,
       if created name tr || bool_decide (is_Some schema)
       then Return {| coll_name := name |}
       else Raise (Exception "SchemaNotReadyException"
                     "Collection not exist");
     env_create_index := λ _ _ _ _, Return ();
     env_load := λ _ _, Return ();
     env_insert := λ _ _ e,
       if aligned e then Return ()
       else Raise (Exception "DataNotMatchException"
                     "The data does not match the schema");
     env_flush := λ _ _, Return ();
     env_search := λ tr c data _ _ limit outs,
       if bool_decide (0 < limit) then
         Return ((λ q, take (Z.to_nat limit)
                         (best_first (hit_of q outs <$> replay c tr [] [])))
                 <$> data)
       else Raise (Exception "ParamError" "limit must be positive");
     env_uuid4 := λ tr, "uuid-" +:+ pretty (length (uuids tr)) |}.

Definition conf : Settings :=
  {| vector_dimension := 384;
     milvus_uri := "http://localhost:19530";
     milvus_token := "";
     milvus_collection := "documents" |}.

Definition engine : EmbeddingEngine :=
  {| model := {| st_name := "all-MiniLM-L6-v2" |};
     dimension := 384;
     collection := {| coll_name := "documents" |} |}.

End MemStore.

(** ** Outcomes the properties speak of *)

(** The outcome of [store_embeddings], by the answers of insert and flush. *)
Definition store_outcome (env : Env) (self : EmbeddingEngine)
  (embeddings : list vector) (texts : list string)
  (metadata : gmap string pyval) (tr : trace)
  : result (list string) * trace :=
  let ids := uuid_draws env tr (length texts) in
  let c := collection self in
  let ents := batch ids embeddings texts metadata in
  let tr1 := tr ++ (EUuid4 <$> ids) in
  let failed e :=
    ELog ERROR [FStr "Error storing embeddings in Milvus: "; FExn e] in
  match env_insert env tr1 c ents with
  | Raise e =>
      (Raise e, (EUuid4 <$> ids) ++ [EInsert c ents (Raise e); failed e])
  | Return u =>
      match env_flush env (tr1 ++ [EInsert c ents (Return u)]) c with
      | Raise e =>
          (Raise e,
           (EUuid4 <$> ids) ++
             [EInsert c ents (Return u); EFlush c (Raise e); failed e])
      | Return u' =>
          (Return ids,
           (EUuid4 <$> ids) ++
             [EInsert c ents (Return u); EFlush c (Return u');
              ELog INFO [FStr "Stored "; FInt (len ids);
                         FStr " vectors in Milvus"]])
      end
  end.

(** [store_embeddings] refused the batch before writing: it raised, and
    neither insert nor flush was issued. *)
Definition fails_before_any_write {A} (run : result A * trace) : Prop :=
  (∃ e, run.1 = Raise e) ∧ ∀ ev, ev ∈ run.2 → is_write ev = false.

(** The insert in [d] stored the rows in input order: row [i] pairs the
    [i]-th id with the [i]-th text and the [i]-th embedding. *)
Definition stored_in_order (c : Collection) (ids : list string)
  (embeddings : list vector) (texts : list string)
  (metadata : gmap string pyval) (d : trace) : Prop :=
  ∃ ents,
    EInsert c ents (Return ()) ∈ d ∧
    length (rows ents) = length ids ∧
    ∀ i id, ids !! i = Some id →
      ∃ t v, texts !! i = Some t ∧ embeddings !! i = Some v ∧
        rows ents !! i =
          Some {| row_id := id;
                  row_document_id := metadata_document_id metadata;
                  row_text := t; row_vector := v |}.

(** The events of a successful [_init_collection]: the attach branch or
    the create branch, then the load. *)
Definition attach_events (settings : Settings) (c : Collection) : trace :=
  [EHasCollection (milvus_collection settings) (Return true);
   ECollection (milvus_collection settings) None (Return c);
   ELog INFO [FStr "Using existing collection: ";
              FStr (milvus_collection settings)]].

Definition create_events (settings : Settings) (dim : Z) (c : Collection)
  : trace :=
  [EHasCollection (milvus_collection settings) (Return false);
   ECollection (milvus_collection settings)
     (Some {| cs_fields := collection_fields dim;
              cs_description := "Document embeddings" |}) (Return c);
   ECreateIndex c "vector" index_params (Return ());
   ELog INFO [FStr "Created new collection: ";
              FStr (milvus_collection settings)]].

Definition load_events (c : Collection) : trace :=
  [ELoad c (Return ()); ELog INFO [FStr "Collection loaded into memory"]].

(** ** Counting calls and reading logs *)

(** Which collaborator's call an event records. *)
Inductive call_kind : Type :=
| KModel | KEncode | KConnect | KDisconnect | KHasCollection | KCollection
| KCreateIndex | KLoad | KInsert | KFlush | KSearch | KUuid4 | KLog.

#[global] Instance call_kind_eq_dec : EqDecision call_kind.
Proof. solve_decision. Defined.

Definition kind_of (ev : event) : call_kind :=
  match ev with
  | ESentenceTransformer _ _ => KModel
  | EEncode _ _ _ => KEncode
  | EConnect _ _ _ _ => KConnect
  | EDisconnect _ _ => KDisconnect
  | EHasCollection _ _ => KHasCollection
  | ECollection _ _ _ => KCollection
  | ECreateIndex _ _ _ _ => KCreateIndex
  | ELoad _ _ => KLoad
  | EInsert _ _ _ => KInsert
  | EFlush _ _ => KFlush
  | ESearch _ _ _ _ _ _ _ => KSearch
  | EUuid4 _ => KUuid4
  | ELog _ _ => KLog
  end.

(** How many calls of kind [k] the history [d] records. *)
Definition count_calls (k : call_kind) (d : trace) : nat :=
  length (filter (λ ev, kind_of ev = k) d).

(** A call on the vector store or its connection. *)
Definition is_store_call (ev : event) : bool :=
  match kind_of ev with
  | KModel | KEncode | KUuid4 | KLog => false
  | _ => true
  end.

(** The computation logs its outcome: when it raises [e] its last event is
    an error line that carries [e]; when it returns it wrote no error line
    and its last event is an info line. *)
Definition logs_outcome {A} (m : M A) : Prop :=
  ∀ tr,
    match (m tr).1 with
    | Raise e => ∃ s, last (m tr).2 = Some (ELog ERROR [FStr s; FExn e])
    | Return _ =>
        (∀ msg, ELog ERROR msg ∉ (m tr).2) ∧
        ∃ msg, last (m tr).2 = Some (ELog INFO msg)
    end.

#[global] Instance DataType_eq_dec : EqDecision DataType.
Proof. solve_decision. Defined.

(** The names of the schema's fields of type [t]. *)
Definition field_names (t : DataType) (schema : CollectionSchema)
  : list string :=
  fs_name <$> filter (λ f, fs_dtype f = t) (cs_fields schema).

(** Every event of [d] records a call of one of the kinds [ks]. *)
Definition kinds_within (ks : list call_kind) (d : trace) : Prop :=
  Forall (λ ev, kind_of ev ∈ ks) d.

(** ** The reference store with faults

    [faulty dim fail] answers as [MemStore.mem dim true], except that a
    call of kind [k] raises [e] whenever [fail k = Some e]. *)
Module Faults.

Definition guard {A} (fail : call_kind → option exn) (k : call_kind)
  (r : result A) : result A :=
  match fail k with
  | Some e => Raise e
  | None => r
  end.

Definition faulty (dim : nat) (fail : call_kind → option exn) : Env :=
  let base := MemStore.mem dim true in
  {| env_sentence_transformer := λ tr name,
       guard fail KModel (env_sentence_transformer base tr name);
     env_encode := λ tr m texts,
       guard fail KEncode (env_encode base tr m texts);
     env_connect := λ tr alias uri token,
       guard fail KConnect (env_connect base tr alias uri token);
     env_disconnect := λ tr alias,
       guard fail KDisconnect (env_disconnect base tr alias);
     env_has_collection := λ tr name,
       guard fail KHasCollection (env_has_collection base tr name);
     env_collection := λ tr name schema,
       guard fail KCollection (env_collection base tr name schema);
     env_create_index := λ tr c field p,
       guard fail KCreateIndex (env_create_index base tr c field p);
     env_load := λ tr c, guard fail KLoad (env_load base tr c);
     env_insert := λ tr c e, guard fail KInsert (env_insert base tr c e);
     env_flush := λ tr c, guard fail KFlush (env_flush base tr c);
     env_search := λ tr c data f p limit outs,
       guard fail KSearch (env_search base tr c data f p limit outs);
     env_uuid4 := env_uuid4 base |}.

Definition boom : exn := Exception "MilvusException" "injected fault".

(** Only calls of kind [k] fail. *)
Definition only (k : call_kind) : call_kind → option exn :=
  λ k', if decide (k' = k) then Some boom else None.

(** A model whose [encode] answers with no vector at all. *)
Definition mute : Env :=
  let base := MemStore.mem 2 true in
  {| env_sentence_transformer := env_sentence_transformer base;
     env_encode := λ _ _ _, Return [];
     env_connect := env_connect base;
     env_disconnect := env_disconnect base;
     env_has_collection := env_has_collection base;
     env_collection := env_collection base;
     env_create_index := env_create_index base;
     env_load := env_load base;
     env_insert := env_insert base;
     env_flush := env_flush base;
     env_search := env_search base;
     env_uuid4 := env_uuid4 base |}.

End Faults.

(** ** [verify_fixes.py]: [main]

    [main] prints a header, runs the six tests, prints a summary and
    returns the exit code.  Each test returns a [bool]; what a test does
    besides (its imports, its calls, its own output) happens in a world
    [W] that [main] does not look at.  The state of the script is that
    world and the lines [main] itself has printed. *)
Module VerifyFixes.

Record State (W : Type) : Type := {
  out : list string;
  world : W
}.
Arguments out {W} _.
Arguments world {W} _.

Definition Script (W A : Type) : Type := State W → A * State W.

#[global] Instance script_ret {W} : MRet (Script W) := λ A a st, (a, st).

#[global] Instance script_bind {W} : MBind (Script W) :=
  λ A B f m st, let '(a, st') := m st in f a st'.

Definition print {W} (line : string) : Script W () :=
  λ st, ((), {| out := out st ++ [line]; world := world st |}).

(** A test function, called from [main]. *)
Definition run_test {W} (test : W → bool * W) : Script W bool :=
  λ st, let '(b, w) := test (world st) in
        (b, {| out := out st; world := w |}).

Definition NL : string := String (Ascii.ascii_of_nat 10) "".

(** [s * n] on a [str]. *)
Fixpoint str_mul (s : string) (n : nat) : string :=
  match n with
  | O => ""
  | S n' => s +:+ str_mul s n'
  end.

(** [sum(1 for _, result in results if result)]. *)
Definition count_passed (results : list (string * bool)) : Z :=
  foldr Z.add 0 ((λ _, 1) <$> filter (λ p, p.2 = true) results).

(** The [for name, result in results] loop. *)
Fixpoint print_statuses {W} (results : list (string * bool))
  : Script W () :=
  match results with
  | [] => mret ()
  | (name, result) :: rest =>
      let status := if result : bool then "✅ PASS" else "❌ FAIL" in
      print ("  " +:+ status +:+ "  " +:+ name) ;;
      print_statuses rest
  end.

Definition all_passed_line : string :=
  "🎉 All verifications passed! System is ready.".

Definition failed_line (n : Z) : string :=
  "⚠️  " +:+ pretty n +:+ " test(s) failed. Review errors above.".

Section Main.

Context {W : Type}.
Variables test_settings test_security test_llm_client test_embeddings
  test_embeddings_methods test_api_structure : W → bool * W.

(** The [results.append] lines. *)
Definition run_tests : Script W (list (string * bool)) :=
  r1 ← run_test test_settings;
  r2 ← run_test test_security;
  r3 ← run_test test_llm_client;
  r4 ← run_test test_embeddings;
  r5 ← run_test test_embeddings_methods;
  r6 ← run_test test_api_structure;
  mret [("Settings", r1); ("Security", r2); ("LLM Client", r3);
        ("Embeddings", r4); ("Embedding Methods", r5);
        ("API Structure", r6)].

Definition main : Script W Z :=
  print (NL +:+ str_mul "=" 70) ;;
  print "  VERIFICATION SCRIPT - Testing All Fixed Components" ;;
  print (str_mul "=" 70 +:+ NL) ;;
  results ← run_tests;
  print (NL +:+ str_mul "=" 70) ;;
  print "  VERIFICATION SUMMARY" ;;
  print (str_mul "=" 70) ;;
  let passed := count_passed results in
  let total := len results in
  print_statuses results ;;
  print (NL +:+ str_mul "=" 70) ;;
  print ("  TOTAL: " +:+ pretty passed +:+ "/" +:+ pretty total
         +:+ " tests passed") ;;
  print (str_mul "=" 70 +:+ NL) ;;
  if bool_decide (passed = total) then
    print all_passed_line ;; mret 0
  else
    print (failed_line (total - passed)) ;; mret 1.

(** The state in which [main] starts the tests. *)
Definition after_header (st : State W) : State W :=
  {| out := out st ++
       [NL +:+ str_mul "=" 70;
        "  VERIFICATION SCRIPT - Testing All Fixed Components";
        str_mul "=" 70 +:+ NL];
     world := world st |}.

End Main.

End VerifyFixes.

(** * Properties *)

(** ** The engine against the reference store *)

Example init_creates_then_loads :
  (__init__ (MemStore.mem 384 true) MemStore.conf []).1
  = Return MemStore.engine
  ∧ is_collection_init <$> (__init__ (MemStore.mem 384 true) MemStore.conf []).2
    = [false; false; false; true; true; true; false; true; false].
Proof. split; reflexivity. Qed.

Example store_then_search :
  let env := MemStore.mem 2 true in
  let stored :=
    (store_embeddings env MemStore.engine [[1%Q; 0%Q]; [0%Q; 1%Q]] ["a"; "b"]
       {[ "document_id" := PStr "d1" ]} []).2 in
  r_id <$$> (search env MemStore.engine "xyz" 2 stored).1
  = Return ["uuid-0"; "uuid-1"].
Proof. vm_compute. reflexivity. Qed.

Example close_reachable :
  close (MemStore.mem 384 true) []
  = (Return (), [EDisconnect "default" (Return ());
                 ELog INFO [FStr "Disconnected from Milvus"]]).
Proof. reflexivity. Qed.

(** ** The write path, step by step *)

(** Bring a history built by nested appends to one shape. *)
Ltac flatten_trace :=
  repeat (rewrite <- app_assoc || rewrite app_nil_r || cbn [app]);
  try reflexivity.

Section Run.

Variable env : Env.

Lemma uuid4_list_run n tr :
  uuid4_list env n tr =
    (Return (uuid_draws env tr n), EUuid4 <$> uuid_draws env tr n).
Proof.
  revert tr. induction n as [|n IH]; intros tr; [done|].
  cbn [uuid4_list uuid_draws]. unfold bind at 1. cbn [uuid4].
  unfold bind at 1. rewrite IH. unfold ret. cbn.
  by rewrite (right_id_L [] (++)).
Qed.

Lemma length_uuid_draws n tr : length (uuid_draws env tr n) = n.
Proof. revert tr. induction n as [|n IH]; intros tr; cbn; [done|]. by rewrite IH. Qed.

Lemma uuids_app d1 d2 : uuids (d1 ++ d2) = uuids d1 ++ uuids d2.
Proof. apply omap_app. Qed.

Lemma uuids_fmap ids : uuids (EUuid4 <$> ids) = ids.
Proof. induction ids as [|x ids IH]; cbn; [done|]. by f_equal. Qed.

Lemma store_embeddings_run self embeddings texts metadata tr :
  store_embeddings env self embeddings texts metadata tr =
    store_outcome env self embeddings texts metadata tr.
Proof.
  unfold store_embeddings, store_outcome, try_except, bind.
  rewrite uuid4_list_run.
  unfold collection_insert, collection_flush, call, logger_info,
    logger_error, raise, ret, batch. cbn.
  destruct (env_insert _ _ _ _) as [u|e] eqn:Hins; cbn.
  - rewrite <- !(assoc_L (++)). cbn.
    destruct (env_flush _ _ _) as [u'|e] eqn:Hfl; cbn; flatten_trace.
  - flatten_trace.
Qed.

End Run.

Lemma filter_uuid_events (P : event → bool) ids :
  (∀ s, P (EUuid4 s) = false) → filter P (EUuid4 <$> ids) = [].
Proof.
  intros HP. induction ids as [|x ids IH]; [done|].
  rewrite fmap_cons, filter_cons_False; [done|]. rewrite HP. exact id.
Qed.

Lemma lookup_rows e i r :
  rows e !! i = Some r ↔
  col_id e !! i = Some (row_id r) ∧
  col_document_id e !! i = Some (row_document_id r) ∧
  col_text e !! i = Some (row_text r) ∧
  col_vector e !! i = Some (row_vector r).
Proof.
  unfold rows. rewrite lookup_zip_with_Some. split.
  - intros ([a b] & [t v] & -> & [??]%lookup_zip_Some & [??]%lookup_zip_Some).
    done.
  - intros (? & ? & ? & ?). destruct r as [a b t v]; cbn in *.
    exists (a, b), (t, v). by rewrite !lookup_zip_Some.
Qed.

(** Every insert that [store_embeddings] issues is the one of its batch. *)
Lemma store_embeddings_inserts env self embeddings texts metadata tr c ents r :
  EInsert c ents r ∈ (store_embeddings env self embeddings texts metadata tr).2 →
  c = collection self ∧
  ents = batch (uuid_draws env tr (length texts)) embeddings texts metadata ∧
  r = env_insert env (tr ++ (EUuid4 <$> uuid_draws env tr (length texts)))
        c ents.
Proof.
  rewrite store_embeddings_run. unfold store_outcome.
  destruct (env_insert _ _ _ _) as [u|e] eqn:Hins;
    [destruct (env_flush _ _ _) as [u'|e]|];
    cbn [snd]; rewrite elem_of_app, list_elem_of_fmap, !elem_of_cons;
    intros [(? & ? & ?)|H]; try done;
    destruct_or?; simplify_eq; try done; by inversion H.
Qed.

Lemma store_embeddings_issues_insert env self embeddings texts metadata tr :
  let ids := uuid_draws env tr (length texts) in
  let ents := batch ids embeddings texts metadata in
  EInsert (collection self) ents
    (env_insert env (tr ++ (EUuid4 <$> ids)) (collection self) ents)
  ∈ (store_embeddings env self embeddings texts metadata tr).2.
Proof.
  rewrite store_embeddings_run. unfold store_outcome.
  destruct (env_insert _ _ _ _) as [u|e] eqn:Hins;
    [destruct (env_flush _ _ _) as [u'|e]|];
    cbn [snd]; rewrite elem_of_app, !elem_of_cons; auto.
Qed.

(** The events of a successful [store_embeddings]. *)
Lemma store_embeddings_success env self embeddings texts metadata tr ids :
  (store_embeddings env self embeddings texts metadata tr).1 = Return ids →
  ids = uuid_draws env tr (length texts) ∧
  (store_embeddings env self embeddings texts metadata tr).2 =
    (EUuid4 <$> ids) ++
    [EInsert (collection self) (batch ids embeddings texts metadata)
       (Return ());
     EFlush (collection self) (Return ());
     ELog INFO [FStr "Stored "; FInt (len ids); FStr " vectors in Milvus"]].
Proof.
  rewrite store_embeddings_run. unfold store_outcome.
  destruct (env_insert _ _ _ _) as [[]|e]; [|done].
  destruct (env_flush _ _ _) as [[]|e]; [|done].
  cbn [fst snd]. by intros [= <-].
Qed.

(** C7: a successful [store_embeddings] issues, after drawing its ids, one
    insert of the whole batch, then one flush, both answered without an
    exception, and only then logs and returns; insert and flush are the
    only writes of the call. *)
Theorem store_embeddings_insert_then_flush
  env self embeddings texts metadata tr ids :
  (store_embeddings env self embeddings texts metadata tr).1 = Return ids →
  let d := (store_embeddings env self embeddings texts metadata tr).2 in
  let c := collection self in
  let ents := batch ids embeddings texts metadata in
  d = (EUuid4 <$> ids) ++
      [EInsert c ents (Return ()); EFlush c (Return ());
       ELog INFO [FStr "Stored "; FInt (len ids); FStr " vectors in Milvus"]]
  ∧ filter is_write d = [EInsert c ents (Return ()); EFlush c (Return ())]
  ∧ col_text ents = texts ∧ col_vector ents = embeddings.
Proof.
  intros [_ Hd]%store_embeddings_success. cbn zeta. rewrite Hd.
  split_and!; try done.
  rewrite filter_app, filter_uuid_events by done. done.
Qed.

Lemma store_embeddings_insert_then_flush_witness :
  let run := store_embeddings (MemStore.mem 2 true) MemStore.engine
               [[1%Q; 0%Q]; [0%Q; 1%Q]] ["a"; "b"]
               {[ "document_id" := PStr "d1" ]} [] in
  run.1 = Return ["uuid-0"; "uuid-1"] ∧
  filter is_write run.2 =
    [EInsert (collection MemStore.engine)
       (batch ["uuid-0"; "uuid-1"] [[1%Q; 0%Q]; [0%Q; 1%Q]] ["a"; "b"]
          {[ "document_id" := PStr "d1" ]}) (Return ());
     EFlush (collection MemStore.engine) (Return ())].
Proof.
  split; [reflexivity|].
  apply (store_embeddings_insert_then_flush (MemStore.mem 2 true)
           MemStore.engine [[1%Q; 0%Q]; [0%Q; 1%Q]] ["a"; "b"]
           {[ "document_id" := PStr "d1" ]} [] ["uuid-0"; "uuid-1"]).
  reflexivity.
Defined.

(** C1, against the claim: with one text and no embedding the engine does
    not refuse the batch before writing.  It draws an id and calls insert
    with the misaligned columns; the exception of the call is the one the
    store raised on that insert. *)
Lemma store_embeddings_mismatch_not_refused :
  ¬ fails_before_any_write
      (store_embeddings (MemStore.mem 384 true) MemStore.engine
         [] ["a"] ∅ []).
Proof.
  intros [_ H].
  assert (∃ ev, (store_embeddings (MemStore.mem 384 true) MemStore.engine
                   [] ["a"] ∅ []).2 !! 1%nat = Some ev
                ∧ is_write ev = true) as (ev & Hev & Hw)
    by (eexists; split; reflexivity).
  apply list_elem_of_lookup_2 in Hev. apply H in Hev. congruence.
Qed.

(** C1, as amended: [store_embeddings] does not compare the lengths.  With
    [len(embeddings) != len(texts)] it still draws [len(texts)] ids and
    issues the insert of the misaligned batch; it raises only what the
    insert or the flush raised, and returns the ids when both went
    through. *)
Theorem store_embeddings_length_mismatch
  env self embeddings texts metadata tr :
  length embeddings ≠ length texts →
  let run := store_embeddings env self embeddings texts metadata tr in
  let ids := uuid_draws env tr (length texts) in
  let c := collection self in
  let ents := batch ids embeddings texts metadata in
  let ins := env_insert env (tr ++ (EUuid4 <$> ids)) c ents in
  length ids = length texts ∧
  EInsert c ents ins ∈ run.2 ∧
  match run.1 with
  | Return ids' =>
      ids' = ids ∧ ins = Return () ∧ EFlush c (Return ()) ∈ run.2
  | Raise e =>
      ins = Raise e ∨ (ins = Return () ∧ EFlush c (Raise e) ∈ run.2)
  end.
Proof.
  intros _. cbn zeta. split; [apply length_uuid_draws|].
  split; [apply store_embeddings_issues_insert|].
  rewrite store_embeddings_run. unfold store_outcome.
  destruct (env_insert _ _ _ _) as [[]|e] eqn:Hins;
    [destruct (env_flush _ _ _) as [[]|e]|]; cbn [fst snd];
    rewrite ?elem_of_app, ?elem_of_cons; auto 10.
Qed.

Lemma store_embeddings_length_mismatch_witness :
  let run := store_embeddings (MemStore.mem 384 true) MemStore.engine
               [] ["a"] ∅ [] in
  let ents := batch ["uuid-0"] [] ["a"] ∅ in
  EInsert (collection MemStore.engine) ents
    (Raise (Exception "DataNotMatchException"
              "The data does not match the schema")) ∈ run.2.
Proof.
  apply (store_embeddings_length_mismatch (MemStore.mem 384 true)
           MemStore.engine [] ["a"] ∅ []).
  cbn. lia.
Defined.

Lemma length_rows_batch ids (embeddings : list vector) (texts : list string)
  metadata :
  length ids = length texts → length embeddings = length texts →
  length (rows (batch ids embeddings texts metadata)) = length ids.
Proof.
  intros H1 H2. unfold rows, batch. cbn.
  rewrite length_zip_with, !length_zip, length_replicate. lia.
Qed.

(** A failed [store_embeddings] failed in a call: insert or flush. *)
Lemma store_embeddings_raises env self embeddings texts metadata tr e :
  (store_embeddings env self embeddings texts metadata tr).1 = Raise e →
  raised e (store_embeddings env self embeddings texts metadata tr).2.
Proof.
  rewrite store_embeddings_run. unfold store_outcome.
  destruct (env_insert _ _ _ _) as [[]|e1];
    [destruct (env_flush _ _ _) as [[]|e2]|]; cbn [fst snd]; [done|..];
    intros [= ->].
  - exists (EFlush (collection self) (Raise e)). split; [|done].
    rewrite elem_of_app, !elem_of_cons. auto.
  - eexists (EInsert (collection self) _ (Raise e)). split; [|done].
    rewrite elem_of_app, !elem_of_cons. auto.
Qed.

(** C8: let [doc] be ["unknown"] when [metadata] has no key [document_id],
    and the value under that key when it has one.  Then [store_embeddings]
    does not fail for the missing key: it raises only what a call raised.
    It issues one insert, on its own collection, of the batch made of one
    fresh id per text, [doc] once per text, the texts and the embeddings;
    with as many embeddings as texts the store reads from it one row per
    text, row [i] holding the [i]-th id, [doc], the [i]-th text and the
    [i]-th embedding. *)
Theorem store_embeddings_document_id
  env self embeddings texts metadata tr doc :
  (metadata !! "document_id" = None ∧ doc = PStr "unknown") ∨
  metadata !! "document_id" = Some doc →
  let run := store_embeddings env self embeddings texts metadata tr in
  let ids := uuid_draws env tr (length texts) in
  let ents := {| col_id := ids;
                 col_document_id := replicate (length texts) doc;
                 col_text := texts;
                 col_vector := embeddings |} in
  (∃ r, EInsert (collection self) ents r ∈ run.2) ∧
  (∀ c ents' r, EInsert c ents' r ∈ run.2 →
     c = collection self ∧ ents' = ents) ∧
  length ids = length texts ∧
  (length embeddings = length texts →
   length (rows ents) = length texts ∧
   ∀ i t v, texts !! i = Some t → embeddings !! i = Some v →
     ∃ id, ids !! i = Some id ∧
       rows ents !! i =
         Some {| row_id := id; row_document_id := doc;
                 row_text := t; row_vector := v |}) ∧
  (∀ e, run.1 = Raise e → raised e run.2).
Proof.
  intros Hdoc.
  assert (doc = metadata_document_id metadata) as ->.
  { unfold metadata_document_id. by destruct Hdoc as [[-> ->]| ->]. }
  cbn zeta. change {| col_id := ?i; col_document_id := _; col_text := _;
                      col_vector := _ |}
    with (batch i embeddings texts metadata).
  pose proof (length_uuid_draws env (length texts) tr) as Hids.
  split_and!.
  - eexists. apply store_embeddings_issues_insert.
  - by intros c ents' r (-> & -> & _)%store_embeddings_inserts.
  - done.
  - intros Hlen. split.
    + rewrite length_rows_batch by done. done.
    + intros i t v Ht Hv.
      destruct (lookup_lt_is_Some_2 (uuid_draws env tr (length texts)) i)
        as [id Hid].
      { rewrite Hids. by eapply lookup_lt_Some. }
      exists id. split; [done|]. apply lookup_rows. cbn.
      split_and!; [done| |done..].
      apply lookup_replicate_2. by eapply lookup_lt_Some.
  - apply store_embeddings_raises.
Qed.

Lemma store_embeddings_document_id_witness :
  (∃ r,
     EInsert (collection MemStore.engine)
       {| col_id := ["uuid-0"; "uuid-1"];
          col_document_id := [PStr "unknown"; PStr "unknown"];
          col_text := ["a"; "b"];
          col_vector := [[1%Q; 0%Q]; [0%Q; 1%Q]] |} r
     ∈ (store_embeddings (MemStore.mem 2 true) MemStore.engine
          [[1%Q; 0%Q]; [0%Q; 1%Q]] ["a"; "b"] ∅ []).2) ∧
  (∃ r,
     EInsert (collection MemStore.engine)
       {| col_id := ["uuid-0"; "uuid-1"];
          col_document_id := [PStr "doc-1"; PStr "doc-1"];
          col_text := ["a"; "b"];
          col_vector := [[1%Q; 0%Q]; [0%Q; 1%Q]] |} r
     ∈ (store_embeddings (MemStore.mem 2 true) MemStore.engine
          [[1%Q; 0%Q]; [0%Q; 1%Q]] ["a"; "b"]
          {[ "document_id" := PStr "doc-1" ]} []).2).
Proof.
  split.
  - refine (proj1 (store_embeddings_document_id (MemStore.mem 2 true)
      MemStore.engine [[1%Q; 0%Q]; [0%Q; 1%Q]] ["a"; "b"] ∅ []
      (PStr "unknown") _)).
    left. split; reflexivity.
  - refine (proj1 (store_embeddings_document_id (MemStore.mem 2 true)
      MemStore.engine [[1%Q; 0%Q]; [0%Q; 1%Q]] ["a"; "b"]
      {[ "document_id" := PStr "doc-1" ]} [] (PStr "doc-1") _)).
    right. reflexivity.
Defined.

(** C10: every row of a batch that [store_embeddings] inserts carries the
    one [document_id] read from [metadata]: the column holds that value
    once per text, and so does each row the store reads from the batch. *)
Theorem store_embeddings_one_document
  env self embeddings texts metadata tr c ents r :
  EInsert c ents r ∈
    (store_embeddings env self embeddings texts metadata tr).2 →
  col_document_id ents
    = replicate (length texts) (metadata_document_id metadata) ∧
  ∀ row, row ∈ rows ents →
    row_document_id row = metadata_document_id metadata.
Proof.
  intros (_ & -> & _)%store_embeddings_inserts. split; [done|].
  intros row [i Hi]%list_elem_of_lookup.
  apply lookup_rows in Hi as (_ & Hd & _). cbn in Hd.
  by apply lookup_replicate in Hd as [? _].
Qed.

Lemma store_embeddings_one_document_witness :
  let ents := batch ["uuid-0"; "uuid-1"] [[1%Q; 0%Q]; [0%Q; 1%Q]]
                ["a"; "b"] {[ "document_id" := PStr "doc-1" ]} in
  Forall (λ row, row_document_id row = PStr "doc-1") (rows ents).
Proof.
  apply Forall_forall.
  refine (proj2 (store_embeddings_one_document (MemStore.mem 2 true)
           MemStore.engine [[1%Q; 0%Q]; [0%Q; 1%Q]] ["a"; "b"]
           {[ "document_id" := PStr "doc-1" ]} []
           (collection MemStore.engine) _ (Return ()) _)).
  apply list_elem_of_lookup. exists 2%nat. reflexivity.
Defined.

(** What a successful [store_embeddings] returns and leaves behind. *)
Lemma store_embeddings_returns env self embeddings texts metadata tr ids :
  length embeddings = length texts →
  (store_embeddings env self embeddings texts metadata tr).1 = Return ids →
  let d := (store_embeddings env self embeddings texts metadata tr).2 in
  length ids = length texts ∧ uuids d = ids ∧
  stored_in_order (collection self) ids embeddings texts metadata d.
Proof.
  intros Hlen Hret.
  destruct (store_embeddings_success _ _ _ _ _ _ _ Hret) as [Hdraws Hd].
  cbn zeta. rewrite Hd. clear Hd.
  assert (length ids = length texts) as Hids.
  { rewrite Hdraws. apply length_uuid_draws. }
  split_and!; [done|by rewrite uuids_app, uuids_fmap, app_nil_r|].
  exists (batch ids embeddings texts metadata). split_and!.
  - rewrite elem_of_app, !elem_of_cons. auto.
  - by apply length_rows_batch.
  - intros i id Hi.
    destruct (lookup_lt_is_Some_2 texts i) as [t Ht].
    { rewrite <- Hids. by eapply lookup_lt_Some. }
    destruct (lookup_lt_is_Some_2 embeddings i) as [v Hv].
    { rewrite Hlen. by eapply lookup_lt_Some. }
    exists t, v. split_and!; [done..|].
    apply lookup_rows. cbn. split_and!; [done| |done..].
    apply lookup_replicate_2. by eapply lookup_lt_Some.
Qed.

(** C2: a successful [store_embeddings] on [n] texts and [n] embeddings
    returns [n] ids, the [i]-th one stored with the [i]-th text and the
    [i]-th embedding; and when [uuid4] never gave the same value twice in
    the history, the ids of two calls, the second anywhere later in the
    history, are pairwise distinct, within each call and across them. *)
Theorem store_embeddings_ids
  env self1 embeddings1 texts1 metadata1 self2 embeddings2 texts2 metadata2
  tr mid ids1 ids2 :
  let run1 := store_embeddings env self1 embeddings1 texts1 metadata1 tr in
  let tr' := tr ++ run1.2 ++ mid in
  let run2 := store_embeddings env self2 embeddings2 texts2 metadata2 tr' in
  length embeddings1 = length texts1 →
  length embeddings2 = length texts2 →
  run1.1 = Return ids1 →
  run2.1 = Return ids2 →
  NoDup (uuids (tr' ++ run2.2)) →
  length ids1 = length texts1 ∧
  length ids2 = length texts2 ∧
  stored_in_order (collection self1) ids1 embeddings1 texts1 metadata1 run1.2 ∧
  stored_in_order (collection self2) ids2 embeddings2 texts2 metadata2 run2.2 ∧
  NoDup (ids1 ++ ids2).
Proof.
  cbn zeta. intros Hl1 Hl2 Hr1 Hr2 Hfresh.
  destruct (store_embeddings_returns _ _ _ _ _ _ _ Hl1 Hr1) as (? & Hu1 & ?).
  destruct (store_embeddings_returns _ _ _ _ _ _ _ Hl2 Hr2) as (? & Hu2 & ?).
  split_and!; try done.
  revert Hfresh. rewrite !uuids_app, Hu1, Hu2. intros Hfresh.
  eapply sublist_NoDup; [exact Hfresh|].
  rewrite <- !app_assoc.
  apply sublist_inserts_l, sublist_app; [done|].
  by apply sublist_inserts_l.
Qed.

Lemma store_embeddings_ids_witness :
  let env := MemStore.mem 2 true in
  let run1 := store_embeddings env MemStore.engine
                [[1%Q; 0%Q]; [0%Q; 1%Q]] ["a"; "b"] ∅ [] in
  let run2 := store_embeddings env MemStore.engine
                [[1%Q; 1%Q]] ["c"] ∅ (run1.2 ++ []) in
  run1.1 = Return ["uuid-0"; "uuid-1"] ∧ run2.1 = Return ["uuid-2"] ∧
  NoDup (["uuid-0"; "uuid-1"] ++ ["uuid-2"]).
Proof.
  split; [reflexivity|]. split; [reflexivity|].
  refine (proj2 (proj2 (proj2 (proj2
    (store_embeddings_ids (MemStore.mem 2 true)
       MemStore.engine [[1%Q; 0%Q]; [0%Q; 1%Q]] ["a"; "b"] ∅
       MemStore.engine [[1%Q; 1%Q]] ["c"] ∅
       [] [] ["uuid-0"; "uuid-1"] ["uuid-2"] _ _ _ _ _)))));
    try reflexivity.
  apply (bool_decide_unpack _). vm_compute. reflexivity.
Defined.

(** ** The embedder and the search path *)

(** Unfold a method down to the answers of the environment. *)
Ltac unfold_run :=
  unfold __init__, _connect_milvus, _init_collection, embed_texts, search,
    close, SentenceTransformer_new, model_encode, connections_connect,
    connections_disconnect, utility_has_collection, Collection_new,
    collection_create_index, collection_load, collection_insert,
    collection_flush, collection_search, try_except, bind, call,
    logger_info, logger_error, ret, raise.

(** Split on every answer the goal still waits for. *)
Ltac case_answers :=
  repeat match goal with
    | |- context [match ?x with _ => _ end] =>
        lazymatch x with
        | context [match _ with _ => _ end] => fail
        | _ => destruct x eqn:?; cbn [fst snd app]
        end
    end.

Lemma embed_texts_run env self texts tr :
  embed_texts env self texts tr =
    match env_encode env tr (model self) texts with
    | Return vs =>
        (Return vs,
         [EEncode (model self) texts (Return vs);
          ELog INFO [FStr "Generated "; FInt (len vs); FStr " embeddings"]])
    | Raise e =>
        (Raise e,
         [EEncode (model self) texts (Raise e);
          ELog ERROR [FStr "Error generating embeddings: "; FExn e]])
    end.
Proof. unfold_run. cbn. by case_answers. Qed.

(** C6: when the model maps each text to a vector of [dimension] numbers,
    a successful [embed_texts] returns the vectors of the texts, one per
    text and in their order, each of length [dimension]; for no text it
    returns no vector. *)
Theorem embed_texts_vectors env self f texts tr vs :
  encoder_contract env f (dimension self) →
  (embed_texts env self texts tr).1 = Return vs →
  length vs = length texts ∧
  (∀ i t, texts !! i = Some t → vs !! i = Some (f t)) ∧
  Forall (λ v, len v = dimension self) vs ∧
  (texts = [] → vs = []).
Proof.
  intros [Hdim Henc]. rewrite embed_texts_run.
  destruct (env_encode _ _ _ _) as [vs'|e] eqn:Hrun; [|done].
  cbn [fst]. intros [= ->]. apply Henc in Hrun as ->. split_and!.
  - apply length_fmap.
  - intros i t Ht. by rewrite list_lookup_fmap, Ht.
  - apply Forall_fmap, Forall_forall. intros s _. apply Hdim.
  - by intros ->.
Qed.

Lemma mem_encoder_contract dim b :
  encoder_contract (MemStore.mem dim b) (MemStore.toy_embedding dim)
    (Z.of_nat dim).
Proof.
  split.
  - intros s. unfold len, MemStore.toy_embedding. by rewrite length_resize.
  - intros tr m texts vs [= <-]. done.
Qed.

Lemma embed_texts_vectors_witness :
  let run := embed_texts (MemStore.mem 384 true) MemStore.engine
               ["Hello world"; "Test document"] [] in
  ∃ vs, run.1 = Return vs ∧ length vs = 2%nat ∧
        Forall (λ v, len v = 384) vs.
Proof.
  eexists. split; [reflexivity|].
  destruct (embed_texts_vectors (MemStore.mem 384 true) MemStore.engine
              (MemStore.toy_embedding 384)
              ["Hello world"; "Test document"] [] _
              (mem_encoder_contract 384 true) eq_refl)
    as (Hlen & _ & Hdim & _).
  split; [exact Hlen|exact Hdim].
Defined.

(** A successful [search] formats what one search call of the store
    answered for the one embedded query. *)
Lemma search_returns env self query_text top_k tr res :
  (search env self query_text top_k tr).1 = Return res →
  ∃ tr' q groups,
    env_search env tr' (collection self) [q] "vector" search_params top_k
      ["text"; "document_id"] = Return groups ∧
    ESearch (collection self) [q] "vector" search_params top_k
      ["text"; "document_id"] (Return groups)
      ∈ (search env self query_text top_k tr).2 ∧
    res = format_results groups.
Proof.
  unfold search, try_except, bind. rewrite embed_texts_run.
  destruct (env_encode _ _ _ _) as [[|q vs]|e]; unfold_run; cbn; try done.
  destruct (env_search _ _ _ _ _ _ _ _) as [groups|e] eqn:Hs; cbn; [|done].
  intros [= <-]. eexists _, q, groups. split_and!; [exact Hs| |done].
  rewrite !elem_of_cons. auto.
Qed.

Lemma format_results_one hits : format_results [hits] = format_hit <$> hits.
Proof. unfold format_results. cbn. by rewrite app_nil_r. Qed.

(** C3: when the store answers a search with one group per query vector,
    of at most [limit] hits, best score first, a successful [search]
    returns at most [top_k] results, no score followed by a higher one, the
    [i]-th result carrying id, text, document_id and score of the [i]-th
    hit.  This holds for every [top_k], positive or not. *)
Theorem search_ranked env self query_text top_k tr res :
  search_contract env →
  (search env self query_text top_k tr).1 = Return res →
  len res ≤ top_k ∧
  Sorted (λ a b, score_ge (r_score a) (r_score b)) res ∧
  ∃ q hits,
    ESearch (collection self) [q] "vector" search_params top_k
      ["text"; "document_id"] (Return [hits])
      ∈ (search env self query_text top_k tr).2 ∧
    Forall2 (λ r h,
        r_id r = hit_id h ∧
        r_text r = entity_get h "text" ∧
        r_score r = hit_score h ∧
        r_metadata r !! "document_id" = Some (entity_get h "document_id"))
      res hits.
Proof.
  intros Hstore (tr' & q & groups & Hs & Hev & ->)%search_returns.
  apply Hstore in Hs as [Hone Hranked].
  destruct groups as [|hits [|??]]; try done.
  apply Forall_singleton in Hranked as [Hlen Hsorted].
  rewrite format_results_one. split_and!.
  - unfold len in *. by rewrite length_fmap.
  - eapply Sorted_fmap; [|exact Hsorted]. by intros a b.
  - exists q, hits. split; [done|].
    apply Forall2_fmap_l, Forall_Forall2_diag, Forall_forall.
    intros h _. cbn. by rewrite lookup_singleton_eq.
Qed.

Lemma Sorted_take {A} (R : relation A) n l : Sorted R l → Sorted R (take n l).
Proof.
  intros H. revert n.
  induction H as [|x l Hl IH Hx]; intros [|n]; cbn; try constructor.
  - apply IH.
  - destruct Hx, n; cbn; by constructor.
Qed.

#[local] Instance score_ge_total :
  Total (λ a b : Hit, score_ge (hit_score a) (hit_score b)).
Proof.
  intros a b. unfold score_ge.
  destruct (Qlt_le_dec (hit_score a) (hit_score b)); auto using Qlt_le_weak.
Qed.

Lemma mem_search_contract dim b : search_contract (MemStore.mem dim b).
Proof.
  intros tr c data f p limit outs groups. cbn.
  case_bool_decide as Hk; [|done]. intros [= <-].
  split; [apply length_fmap|].
  apply Forall_fmap, Forall_forall. intros q _. cbn. split.
  - unfold len. rewrite length_take. lia.
  - apply Sorted_take, Sorted_merge_sort. apply score_ge_total.
Qed.

Lemma search_ranked_witness :
  let env := MemStore.mem 2 true in
  let stored :=
    (store_embeddings env MemStore.engine
       (MemStore.toy_embedding 2 <$> ["a"; "bbb"]) ["a"; "bbb"]
       {[ "document_id" := PStr "doc-1" ]} []).2 in
  let run := search env MemStore.engine "cc" 1 stored in
  ∃ res, run.1 = Return res ∧ (r_text <$> res) = [PStr "bbb"] ∧ len res ≤ 1.
Proof.
  intros env stored run.
  destruct run.1 as [res|e] eqn:Hrun; [|by vm_compute in Hrun].
  exists res. split; [reflexivity|]. split.
  - vm_compute in Hrun. by injection Hrun as <-.
  - exact (proj1 (search_ranked env MemStore.engine "cc" 1
                    stored res (mem_search_contract 2 true) Hrun)).
Defined.

(** ** Failures *)

(** Settle [raised e d → ...] when [d] is a list of known events. *)
Ltac by_raised :=
  intros (ev & Hin & Hev);
  repeat (rewrite elem_of_app in Hin || rewrite elem_of_cons in Hin
          || rewrite list_elem_of_fmap in Hin);
  destruct_or?; try destruct Hin as (? & -> & _); try (by inversion Hin);
  simplify_eq; cbn in *; congruence.

Lemma embed_texts_surfaces env self texts : surfaces (embed_texts env self texts).
Proof.
  intros tr e. rewrite embed_texts_run.
  destruct (env_encode _ _ _ _) as [vs|e']; cbn [fst snd]; by_raised.
Qed.

Lemma store_embeddings_surfaces env self embeddings texts metadata :
  surfaces (store_embeddings env self embeddings texts metadata).
Proof.
  intros tr e. rewrite store_embeddings_run. unfold store_outcome.
  destruct (env_insert _ _ _ _) as [u|e1];
    [destruct (env_flush _ _ _) as [u'|e2]|]; cbn [fst snd]; by_raised.
Qed.

Lemma search_surfaces env self query_text top_k :
  surfaces (search env self query_text top_k).
Proof.
  intros tr e. unfold search, try_except, bind. rewrite embed_texts_run.
  destruct (env_encode _ _ _ _) as [[|q vs]|e1]; unfold_run; cbn;
    [by_raised| |by_raised].
  destruct (env_search _ _ _ _ _ _ _ _) as [groups|e2]; cbn; by_raised.
Qed.

Lemma connect_milvus_surfaces env settings :
  surfaces (_connect_milvus env settings).
Proof.
  intros tr e. unfold_run. cbn.
  destruct (env_connect _ _ _ _ _) as [u|e1]; cbn; by_raised.
Qed.

Lemma init_collection_surfaces env settings dim :
  surfaces (_init_collection env settings dim).
Proof.
  intros tr e. unfold_run. cbn.
  destruct (env_has_collection _ _ _) as [[|]|e1]; cbn; [| |by_raised].
  - destruct (env_collection _ _ _ _) as [c|e1]; cbn; [|by_raised].
    destruct (env_load _ _ _) as [u|e1]; cbn; by_raised.
  - destruct (env_collection _ _ _ _) as [c|e1]; cbn; [|by_raised].
    destruct (env_create_index _ _ _ _ _) as [u|e1]; cbn; [|by_raised].
    destruct (env_load _ _ _) as [u'|e1]; cbn; by_raised.
Qed.

Lemma close_returns env tr : (close env tr).1 = Return ().
Proof.
  unfold_run. cbn. by destruct (env_disconnect _ _ _) as [[]|e].
Qed.

(** C4, against the claim: when the store is unreachable [disconnect]
    raises, and [close] returns as if nothing had happened. *)
Lemma close_discards_failure : ¬ surfaces (close (MemStore.mem 384 false)).
Proof.
  intros H. specialize (H [] MemStore.unreachable).
  assert ((close (MemStore.mem 384 false) []).1 = Raise MemStore.unreachable)
    as Hr; [|by vm_compute in Hr].
  apply H. exists (EDisconnect "default" (Raise MemStore.unreachable)).
  split; [|reflexivity]. cbn. rewrite !elem_of_cons. auto.
Qed.

(** C4, as amended: [embed_texts], [store_embeddings], [search],
    [_init_collection] and [_connect_milvus] raise to their caller whatever
    a call they issued raised, so none of them returns a value in place of
    a failure; [close] logs a failure of [disconnect] and returns
    normally. *)
Theorem failures_surface env settings self :
  (∀ texts, surfaces (embed_texts env self texts)) ∧
  (∀ embeddings texts metadata,
     surfaces (store_embeddings env self embeddings texts metadata)) ∧
  (∀ query_text top_k, surfaces (search env self query_text top_k)) ∧
  (∀ dim, surfaces (_init_collection env settings dim)) ∧
  surfaces (_connect_milvus env settings) ∧
  (∀ tr, (close env tr).1 = Return ()).
Proof.
  split_and!; intros.
  - apply embed_texts_surfaces.
  - apply store_embeddings_surfaces.
  - apply search_surfaces.
  - apply init_collection_surfaces.
  - apply connect_milvus_surfaces.
  - apply close_returns.
Qed.

Lemma failures_surface_witness :
  (search (MemStore.mem 384 true) MemStore.engine "q" 0 []).1
  = Raise (Exception "ParamError" "limit must be positive").
Proof.
  apply (failures_surface (MemStore.mem 384 true) MemStore.conf
           MemStore.engine).
  eexists. split.
  - apply list_elem_of_lookup. exists 2%nat. reflexivity.
  - reflexivity.
Defined.

(** ** Initialization *)

(** A successful [_init_collection] took one of its two branches and then
    loaded the collection it returns. *)
Lemma init_collection_returns env settings dim tr c :
  (_init_collection env settings dim tr).1 = Return c →
  let name := milvus_collection settings in
  let d := (_init_collection env settings dim tr).2 in
  (env_has_collection env tr name = Return true ∧
   d = attach_events settings c ++ load_events c) ∨
  (env_has_collection env tr name = Return false ∧
   d = create_events settings dim c ++ load_events c).
Proof.
  unfold_run. cbn.
  destruct (env_has_collection _ _ _) as [[|]|e1] eqn:Hhas; cbn; [| |done].
  - destruct (env_collection _ _ _ _) as [c'|e1]; cbn; [|done].
    destruct (env_load _ _ _) as [[]|e1]; cbn; [|done].
    intros [= <-]. by left.
  - destruct (env_collection _ _ _ _) as [c'|e1]; cbn; [|done].
    destruct (env_create_index _ _ _ _ _) as [[]|e1]; cbn; [|done].
    destruct (env_load _ _ _) as [[]|e1]; cbn; [|done].
    intros [= <-]. by right.
Qed.

(** Once the store reports the collection, [_init_collection] attaches to
    it and loads it, whatever the store is reliable about. *)
Lemma init_collection_attaches env settings dim tr :
  reliable env (milvus_collection settings) →
  exists_in env (milvus_collection settings) tr →
  ∃ c, _init_collection env settings dim tr =
         (Return c, attach_events settings c ++ load_events c).
Proof.
  intros Hrel Hex. unfold_run. cbn. rewrite Hex. cbn.
  destruct (attach_ok _ _ Hrel _ (exists_persists _ _ Hrel tr
    [EHasCollection (milvus_collection settings) (Return true)] Hex))
    as [c Hc].
  rewrite Hc. cbn. rewrite (load_ok _ _ Hrel); [by exists c|].
  rewrite <- app_assoc. by apply exists_persists.
Qed.

(** C5: against a store that stays reachable and keeps its collections,
    after a successful [_init_collection] a second one, anywhere later in
    the history, returns as well: it finds the collection, attaches to it
    without a schema and builds no index, so that both calls together
    create at most one collection.  A successful call loads the collection
    it returns as its last call on the store, in the attach branch and in
    the create branch alike. *)
Theorem init_collection_idempotent env settings dim tr mid c1 :
  reliable env (milvus_collection settings) →
  let run1 := _init_collection env settings dim tr in
  let run2 := _init_collection env settings dim (tr ++ run1.2 ++ mid) in
  run1.1 = Return c1 →
  (run1.2 = attach_events settings c1 ++ load_events c1 ∨
   run1.2 = create_events settings dim c1 ++ load_events c1) ∧
  ∃ c2,
    run2.1 = Return c2 ∧
    run2.2 = attach_events settings c2 ++ load_events c2 ∧
    filter is_create run2.2 = [] ∧
    (length (filter is_create_collection (run1.2 ++ run2.2)) ≤ 1)%nat.
Proof.
  intros Hrel run1 run2 Hret. subst run1 run2.
  assert (exists_in env (milvus_collection settings)
            (tr ++ (_init_collection env settings dim tr).2 ++ mid)) as Hex.
  { rewrite app_assoc. apply exists_persists; [done|].
    destruct (init_collection_returns _ _ _ _ _ Hret) as [[Hhas ->]|[_ ->]].
    - by apply exists_persists.
    - cbn -[collection_fields].
      match goal with
      | |- exists_in _ _ (tr ++ ?a :: ?b :: ?rest) =>
          replace (tr ++ a :: b :: rest) with (((tr ++ [a]) ++ [b]) ++ rest)
            by (by rewrite <- !app_assoc)
      end.
      apply exists_persists; [done|]. by apply created_exists. }
  destruct (init_collection_attaches _ _ dim _ Hrel Hex) as [c2 Hrun2].
  split.
  - destruct (init_collection_returns _ _ _ _ _ Hret) as [[_ ?]|[_ ?]]; auto.
  - exists c2. rewrite Hrun2. split_and!; try done.
    destruct (init_collection_returns _ _ _ _ _ Hret) as [[_ ->]|[_ ->]];
      vm_compute; lia.
Qed.

Lemma mem_created_app name tr tr' :
  MemStore.created name (tr ++ tr') =
    MemStore.created name tr || MemStore.created name tr'.
Proof. apply existsb_app. Qed.

Lemma mem_reliable dim b name : reliable (MemStore.mem dim b) name.
Proof.
  split; unfold exists_in;
    cbn [MemStore.mem env_has_collection env_collection env_load].
  - intros tr schema c. rewrite mem_created_app. cbn.
    rewrite bool_decide_eq_true_2 by done. by rewrite orb_true_r.
  - intros tr tr' [= H]. by rewrite mem_created_app, H.
  - intros tr [= H]. rewrite H. by eexists.
  - done.
Qed.

Lemma init_collection_idempotent_witness :
  let env := MemStore.mem 384 true in
  let run1 := _init_collection env MemStore.conf 384 [] in
  let run2 := _init_collection env MemStore.conf 384 ([] ++ run1.2 ++ []) in
  run1.1 = Return {| coll_name := "documents" |} ∧
  ∃ c2, run2.1 = Return c2 ∧
        (length (filter is_create_collection (run1.2 ++ run2.2)) ≤ 1)%nat.
Proof.
  split; [reflexivity|].
  destruct (init_collection_idempotent (MemStore.mem 384 true) MemStore.conf
              384 [] [] {| coll_name := "documents" |}
              (mem_reliable 384 true "documents") eq_refl)
    as (_ & c2 & Hret & _ & _ & Honce).
  exists c2. split; [exact Hret|exact Honce].
Defined.

(** [__init__], by the answer of the connection. *)
Lemma init_run env settings tr :
  __init__ env settings tr =
    match env_sentence_transformer env tr "all-MiniLM-L6-v2" with
    | Raise e => (Raise e, [ESentenceTransformer "all-MiniLM-L6-v2" (Raise e)])
    | Return m =>
        let d0 := [ESentenceTransformer "all-MiniLM-L6-v2" (Return m)] in
        let uri := milvus_uri settings in
        let token := milvus_token settings in
        match env_connect env (tr ++ d0) "default" uri token with
        | Raise e =>
            (Raise e,
             d0 ++ [EConnect "default" uri token (Raise e);
                    ELog ERROR [FStr "Failed to connect to Milvus: "; FExn e]])
        | Return u =>
            let d1 :=
              d0 ++ [EConnect "default" uri token (Return u);
                     ELog INFO [FStr "Connected to Milvus successfully"]] in
            let run :=
              _init_collection env settings (vector_dimension settings)
                (tr ++ d1) in
            (match run.1 with
             | Return c =>
                 Return {| model := m;
                           dimension := vector_dimension settings;
                           collection := c |}
             | Raise e => Raise e
             end, d1 ++ run.2)
        end
    end.
Proof.
  unfold __init__, bind at 1, SentenceTransformer_new, call.
  destruct (env_sentence_transformer _ _ _) as [m|e]; [|done].
  unfold bind at 1. unfold _connect_milvus at 1, try_except, bind at 1.
  unfold connections_connect, call, logger_info, logger_error, raise.
  destruct (env_connect _ _ _ _ _) as [u|e]; cbn [fst snd app]; [|done].
  unfold bind. rewrite <- !app_assoc. cbn [app].
  destruct (_init_collection _ _ _ _) as [[c|e] d]; cbn; by rewrite ?app_nil_r.
Qed.

(** [_init_collection] does not touch the connection. *)
Lemma init_collection_no_connect env settings dim tr alias uri token r :
  EConnect alias uri token r ∉ (_init_collection env settings dim tr).2.
Proof.
  unfold_run. cbn. case_answers;
    rewrite ?elem_of_cons, elem_of_nil; intros H; destruct_or?; done.
Qed.

(** C9: [__init__] connects before it initializes the collection.  When
    the connection call raises, [__init__] raises that exception and issues
    no call of collection initialization: no existence check, no create or
    attach, no index build, no load.  In every run, each such call comes
    after a connection call that succeeded. *)
Theorem init_connects_first env settings tr :
  let run := __init__ env settings tr in
  (∀ alias uri token e,
     EConnect alias uri token (Raise e) ∈ run.2 →
     run.1 = Raise e ∧ ∀ ev, ev ∈ run.2 → is_collection_init ev = false) ∧
  (∀ i ev,
     run.2 !! i = Some ev → is_collection_init ev = true →
     ∃ j cev, (j < i)%nat ∧ run.2 !! j = Some cev ∧ is_connected cev = true).
Proof.
  cbn zeta. rewrite init_run.
  destruct (env_sentence_transformer _ _ _) as [m|e0]; cbn zeta.
  - destruct (env_connect _ _ _ _ _) as [u|e1]; cbn [fst snd app]; split.
    + intros alias uri token e. rewrite !elem_of_cons.
      intros [|[|[|H]]]; try done.
      by apply init_collection_no_connect in H.
    + intros [|[|[|i]]] ev; cbn; try (by intros [= <-]).
      intros _ _. exists 1%nat. eexists. split; [lia|done].
    + intros alias uri token e. rewrite !elem_of_cons, elem_of_nil.
      intros [|[[= _ _ _ ->]|[|]]]; try done.
      split; [done|]. intros ev. rewrite !elem_of_cons, elem_of_nil.
      intros [->|[->|[->|]]]; done.
    + intros [|[|[|i]]] ev; cbn; by intros [= <-].
  - cbn [fst snd]. split.
    + intros alias uri token e. rewrite elem_of_cons, elem_of_nil.
      intros [|]; done.
    + intros [|i] ev; cbn; [by intros [= <-]|done].
Qed.

Lemma init_connects_first_witness :
  let run := __init__ (MemStore.mem 384 false) MemStore.conf [] in
  run.1 = Raise MemStore.unreachable ∧
  ∀ ev, ev ∈ run.2 → is_collection_init ev = false.
Proof.
  apply (proj1 (init_connects_first (MemStore.mem 384 false) MemStore.conf
                  []) "default" "http://localhost:19530" ""
           MemStore.unreachable).
  apply list_elem_of_lookup. exists 1%nat. reflexivity.
Defined.

(** * Further properties of the engine *)

Lemma raised_app e d1 d2 : raised e (d1 ++ d2) ↔ raised e d1 ∨ raised e d2.
Proof.
  unfold raised. split.
  - intros (ev & [H|H]%elem_of_app & Hev); eauto.
  - intros [(ev & H & Hev)|(ev & H & Hev)]; exists ev;
      rewrite elem_of_app; auto.
Qed.

(** ** [__init__] *)

(** X1: [__init__] raises whatever the model load, the connection or the
    collection initialization raised.  A failing model load is not logged
    and ends [__init__] before any call on the store. *)
Theorem init_surfaces env settings :
  surfaces (__init__ env settings) ∧
  ∀ tr e,
    env_sentence_transformer env tr "all-MiniLM-L6-v2" = Raise e →
    __init__ env settings tr =
      (Raise e, [ESentenceTransformer "all-MiniLM-L6-v2" (Raise e)]).
Proof.
  split.
  - intros tr e. rewrite init_run.
    destruct (env_sentence_transformer _ _ _) as [m|e0]; cbn zeta;
      [|cbn [fst snd]; by_raised].
    destruct (env_connect _ _ _ _ _) as [u|e1]; cbn [fst snd];
      [|by_raised].
    rewrite raised_app. intros [H|H].
    + revert H. by_raised.
    + apply init_collection_surfaces in H. by rewrite H.
  - intros tr e H. by rewrite init_run, H.
Qed.

Lemma init_surfaces_witness :
  (__init__ (MemStore.mem 384 false) MemStore.conf []).1
  = Raise MemStore.unreachable.
Proof.
  apply (proj1 (init_surfaces (MemStore.mem 384 false) MemStore.conf)).
  eexists. split.
  - apply list_elem_of_lookup. exists 1%nat. reflexivity.
  - reflexivity.
Defined.

(** The events of a successful [__init__]. *)
Lemma init_returns env settings tr engine :
  (__init__ env settings tr).1 = Return engine →
  dimension engine = vector_dimension settings ∧
  ∃ branch,
    (branch = attach_events settings (collection engine) ∨
     branch = create_events settings (vector_dimension settings)
                (collection engine)) ∧
    (__init__ env settings tr).2 =
      [ESentenceTransformer "all-MiniLM-L6-v2" (Return (model engine));
       EConnect "default" (milvus_uri settings) (milvus_token settings)
         (Return ());
       ELog INFO [FStr "Connected to Milvus successfully"]]
      ++ branch ++ load_events (collection engine).
Proof.
  rewrite init_run.
  destruct (env_sentence_transformer _ _ _) as [m|e0]; cbn zeta; [|done].
  destruct (env_connect _ _ _ _ _) as [[]|e1]; [|done].
  cbn [fst snd].
  destruct (_init_collection _ _ _ _).1 as [c|e2] eqn:Hinit; [|done].
  intros [= <-]. cbn [dimension model collection]. split; [done|].
  destruct (init_collection_returns _ _ _ _ _ Hinit) as [[_ ->]|[_ ->]].
  - eexists. split; [by left|done].
  - eexists. split; [by right|done].
Qed.

(** X2: a successful [__init__] loaded the model, connected, initialized
    the collection by one of the two branches and loaded it, in this order
    and with nothing else; the engine it returns holds that model, the
    configured dimension and that collection. *)
Theorem init_success env settings tr engine :
  (__init__ env settings tr).1 = Return engine →
  dimension engine = vector_dimension settings ∧
  ∃ branch,
    (branch = attach_events settings (collection engine) ∨
     branch = create_events settings (vector_dimension settings)
                (collection engine)) ∧
    (__init__ env settings tr).2 =
      [ESentenceTransformer "all-MiniLM-L6-v2" (Return (model engine));
       EConnect "default" (milvus_uri settings) (milvus_token settings)
         (Return ());
       ELog INFO [FStr "Connected to Milvus successfully"]]
      ++ branch ++ load_events (collection engine).
Proof. apply init_returns. Qed.

Lemma init_success_witness :
  dimension MemStore.engine = 384 ∧
  ∃ branch,
    (branch = attach_events MemStore.conf (collection MemStore.engine) ∨
     branch = create_events MemStore.conf 384 (collection MemStore.engine)) ∧
    (__init__ (MemStore.mem 384 true) MemStore.conf []).2 =
      [ESentenceTransformer "all-MiniLM-L6-v2"
         (Return (model MemStore.engine));
       EConnect "default" "http://localhost:19530" "" (Return ());
       ELog INFO [FStr "Connected to Milvus successfully"]]
      ++ branch ++ load_events (collection MemStore.engine).
Proof.
  exact (init_success (MemStore.mem 384 true) MemStore.conf []
           MemStore.engine eq_refl).
Defined.

(** ** [_init_collection] *)

(** X3: when the store reports the collection as existing,
    [_init_collection] attaches to it without a schema, creates nothing,
    builds no index, and does not look at the configured dimension: two
    dimensions give the same run. *)
Theorem init_collection_attach_ignores_dimension env settings dim dim' tr :
  env_has_collection env tr (milvus_collection settings) = Return true →
  _init_collection env settings dim tr = _init_collection env settings dim' tr
  ∧ (∀ ev, ev ∈ (_init_collection env settings dim tr).2 →
       is_create ev = false)
  ∧ ∀ name schema r,
      ECollection name schema r ∈ (_init_collection env settings dim tr).2 →
      schema = None.
Proof.
  intros Hhas. unfold_run. cbn. rewrite Hhas. cbn. split; [done|].
  case_answers; split; intros *; rewrite ?elem_of_cons, elem_of_nil;
    intros H; destruct_or?; simplify_eq; done.
Qed.

Lemma init_collection_attach_ignores_dimension_witness :
  let tr := (_init_collection (MemStore.mem 384 true) MemStore.conf 384 []).2 in
  _init_collection (MemStore.mem 384 true) MemStore.conf 384 tr
  = _init_collection (MemStore.mem 384 true) MemStore.conf 768 tr.
Proof.
  apply (init_collection_attach_ignores_dimension (MemStore.mem 384 true)
           MemStore.conf 384 768).
  reflexivity.
Defined.




(** ** [store_embeddings] *)

Lemma count_calls_app k d1 d2 :
  count_calls k (d1 ++ d2) = (count_calls k d1 + count_calls k d2)%nat.
Proof. unfold count_calls. by rewrite filter_app, length_app. Qed.

Lemma count_calls_uuid_events k ids :
  count_calls k (EUuid4 <$> ids) =
    if decide (k = KUuid4) then length ids else 0%nat.
Proof.
  unfold count_calls. induction ids as [|x ids IH]; [by case_decide|].
  rewrite fmap_cons, filter_cons. cbn [kind_of].
  destruct (decide (KUuid4 = k)) as [<-|Hne].
  - rewrite decide_True in * by done. cbn. by rewrite IH.
  - rewrite decide_False in * by done. done.
Qed.

(** X5: a failed write is not papered over.  When insert raises,
    [store_embeddings] raises that exception and never calls flush; when
    flush raises, it raises that exception although the insert had been
    accepted, so the caller gets no ids for rows the store may hold.  In
    both cases the ids had already been drawn. *)
Theorem store_embeddings_failed_write env self embeddings texts metadata tr :
  let run := store_embeddings env self embeddings texts metadata tr in
  (∀ c ents e,
     EInsert c ents (Raise e) ∈ run.2 →
     run.1 = Raise e ∧ count_calls KFlush run.2 = 0%nat) ∧
  (∀ c e,
     EFlush c (Raise e) ∈ run.2 →
     run.1 = Raise e ∧
     ∃ ents, EInsert c ents (Return ()) ∈ run.2) ∧
  uuids run.2 = uuid_draws env tr (length texts).
Proof.
  cbn zeta. rewrite store_embeddings_run. unfold store_outcome.
  destruct (env_insert _ _ _ _) as [[]|e1];
    [destruct (env_flush _ _ _) as [[]|e2]|]; cbn [fst snd];
    (split_and!;
     [intros c ents e|intros c e|
      by rewrite uuids_app, uuids_fmap, app_nil_r]);
    rewrite elem_of_app, list_elem_of_fmap, !elem_of_cons, elem_of_nil;
    intros [(? & ? & ?)|H]; try done; destruct_or?; simplify_eq;
    try done.
  - split; [done|]. eexists. rewrite elem_of_app, !elem_of_cons. auto.
  - split; [done|].
    rewrite count_calls_app, count_calls_uuid_events. done.
Qed.

Lemma store_embeddings_failed_write_witness :
  let run := store_embeddings (Faults.faulty 2 (Faults.only KFlush))
               MemStore.engine [[1%Q; 0%Q]] ["a"] ∅ [] in
  run.1 = Raise Faults.boom ∧
  ∃ ents, EInsert (collection MemStore.engine) ents (Return ()) ∈ run.2.
Proof.
  apply (proj1 (proj2 (store_embeddings_failed_write
           (Faults.faulty 2 (Faults.only KFlush)) MemStore.engine
           [[1%Q; 0%Q]] ["a"] ∅ []))).
  apply list_elem_of_lookup. exists 2%nat. reflexivity.
Defined.

(** X6: with no text [store_embeddings] draws no id and still calls insert,
    with empty id, document_id and text columns beside whatever embeddings
    it was given, then flush; when both go through it returns no id. *)
Theorem store_embeddings_no_text env self embeddings metadata tr :
  let run := store_embeddings env self embeddings [] metadata tr in
  let ents := {| col_id := []; col_document_id := []; col_text := [];
                 col_vector := embeddings |} in
  uuids run.2 = [] ∧
  head run.2 = Some (EInsert (collection self) ents
                       (env_insert env tr (collection self) ents)) ∧
  ∀ ids, run.1 = Return ids →
    ids = [] ∧
    run.2 = [EInsert (collection self) ents (Return ());
             EFlush (collection self) (Return ());
             ELog INFO [FStr "Stored "; FInt 0; FStr " vectors in Milvus"]].
Proof.
  cbn zeta. rewrite store_embeddings_run. unfold store_outcome, batch.
  cbn [length uuid_draws replicate fmap list_fmap app].
  rewrite app_nil_r.
  destruct (env_insert _ _ _ _) as [[]|e1];
    [destruct (env_flush _ _ _) as [[]|e2]|]; cbn [fst snd];
    split_and!; try done; by intros ids [= <-].
Qed.

Lemma store_embeddings_no_text_witness :
  store_embeddings (MemStore.mem 2 true) MemStore.engine [] [] ∅ [] =
    (Return [],
     [EInsert (collection MemStore.engine)
        {| col_id := []; col_document_id := []; col_text := [];
           col_vector := [] |} (Return ());
      EFlush (collection MemStore.engine) (Return ());
      ELog INFO [FStr "Stored "; FInt 0; FStr " vectors in Milvus"]]).
Proof.
  destruct (store_embeddings_no_text (MemStore.mem 2 true) MemStore.engine
              [] ∅ []) as (_ & _ & H).
  destruct (H [] eq_refl) as [_ Hd].
  apply injective_projections; [reflexivity|exact Hd].
Defined.

(** ** [search] *)

(** X7: [search] embeds the query once and calls the store's search at
    most once: on its own collection, on the field ["vector"], with one
    query vector (the first the model returned), asking for the fields
    [text] and [document_id], and with [top_k] passed on as the limit
    unchecked, positive or not. *)
Theorem search_one_query env self query_text top_k tr :
  let run := search env self query_text top_k tr in
  (∀ c data anns p limit outs r,
     ESearch c data anns p limit outs r ∈ run.2 →
     c = collection self ∧ anns = "vector" ∧ p = search_params ∧
     limit = top_k ∧ outs = ["text"; "document_id"] ∧
     ∃ q vs, data = [q] ∧
       EEncode (model self) [query_text] (Return (q :: vs)) ∈ run.2) ∧
  count_calls KEncode run.2 = 1%nat ∧
  (count_calls KSearch run.2 ≤ 1)%nat.
Proof.
  cbn zeta. unfold search, try_except, bind. rewrite embed_texts_run.
  destruct (env_encode _ _ _ _) as [[|q vs]|e1]; unfold_run; cbn;
    [| |].
  - split_and!; [|done|by vm_compute; lia]. intros *.
    rewrite !elem_of_cons, elem_of_nil. intros H; destruct_or?; done.
  - destruct (env_search _ _ _ _ _ _ _ _) as [groups|e2]; cbn;
      (split_and!; [|done|by vm_compute; lia]); intros *;
      rewrite !elem_of_cons, elem_of_nil; intros H; destruct_or?;
      try done; inversion H; subst;
      (split_and!; try done; exists q, vs; split; [done|];
       rewrite !elem_of_cons; auto).
  - split_and!; [|done|by vm_compute; lia]. intros *.
    rewrite !elem_of_cons, elem_of_nil. intros H; destruct_or?; done.
Qed.

Lemma search_one_query_witness :
  let run := search (MemStore.mem 2 true) MemStore.engine "cc" (-3) [] in
  ESearch (collection MemStore.engine) [MemStore.toy_embedding 2 "cc"]
    "vector" search_params (-3) ["text"; "document_id"]
    (Raise (Exception "ParamError" "limit must be positive")) ∈ run.2 ∧
  ∃ q vs, [MemStore.toy_embedding 2 "cc"] = [q] ∧
    EEncode (model MemStore.engine) ["cc"] (Return (q :: vs)) ∈ run.2.
Proof.
  assert (ESearch (collection MemStore.engine) [MemStore.toy_embedding 2 "cc"]
    "vector" search_params (-3) ["text"; "document_id"]
    (Raise (Exception "ParamError" "limit must be positive"))
    ∈ (search (MemStore.mem 2 true) MemStore.engine "cc" (-3) []).2) as Hin.
  { apply list_elem_of_lookup. exists 2%nat. reflexivity. }
  split; [exact Hin|].
  exact (proj2 (proj2 (proj2 (proj2 (proj2
    (proj1 (search_one_query (MemStore.mem 2 true) MemStore.engine "cc"
              (-3) []) _ _ _ _ _ _ _ Hin)))))).
Defined.

(** X8: without a query vector the store is not asked.  When the model
    raises, [search] raises that exception after two error lines, the one
    of [embed_texts] and its own; when the model answers with no vector,
    [search] raises [IndexError] from taking the first one. *)
Theorem search_without_vector env self query_text top_k tr :
  let m := model self in
  (∀ e, env_encode env tr m [query_text] = Raise e →
     search env self query_text top_k tr =
       (Raise e,
        [EEncode m [query_text] (Raise e);
         ELog ERROR [FStr "Error generating embeddings: "; FExn e];
         ELog ERROR [FStr "Error searching in Milvus: "; FExn e]])) ∧
  (env_encode env tr m [query_text] = Return [] →
     let e := Exception "IndexError" "list index out of range" in
     search env self query_text top_k tr =
       (Raise e,
        [EEncode m [query_text] (Return []);
         ELog INFO [FStr "Generated "; FInt 0; FStr " embeddings"];
         ELog ERROR [FStr "Error searching in Milvus: "; FExn e]])).
Proof.
  cbn zeta. split; [intros e H|intros H];
    unfold search, try_except, bind; rewrite embed_texts_run, H; done.
Qed.

Lemma search_without_vector_witness :
  (search Faults.mute MemStore.engine "cc" 5 []).1
  = Raise (Exception "IndexError" "list index out of range").
Proof.
  exact (f_equal fst
    (proj2 (search_without_vector Faults.mute MemStore.engine "cc" 5 [])
       eq_refl)).
Defined.

Lemma format_results_concat groups :
  format_results groups = format_hit <$> concat groups.
Proof.
  unfold format_results. induction groups as [|g groups IH]; [done|].
  cbn. by rewrite IH, fmap_app.
Qed.

(** X9: a successful [search] returns the hits of every group the store
    answered with, group after group and in the order within each group,
    neither dropping nor re-ordering nor cutting at [top_k]; it returns no
    result exactly when every group is empty. *)
Theorem search_flattens env self query_text top_k tr res :
  (search env self query_text top_k tr).1 = Return res →
  ∃ q groups,
    ESearch (collection self) [q] "vector" search_params top_k
      ["text"; "document_id"] (Return groups)
      ∈ (search env self query_text top_k tr).2 ∧
    res = format_hit <$> concat groups ∧
    length res = sum_list (length <$> groups) ∧
    (res = [] ↔ Forall (λ g, g = []) groups).
Proof.
  intros (tr' & q & groups & _ & Hev & ->)%search_returns.
  exists q, groups. rewrite format_results_concat.
  split_and!; [done|done| |].
  - rewrite length_fmap. clear. induction groups as [|g groups IH]; [done|].
    cbn. rewrite length_app, IH. done.
  - assert (format_hit <$> concat groups = [] ↔ concat groups = []) as ->.
    { split; [apply fmap_nil_inv|by intros ->]. }
    clear. induction groups as [|g groups IH]; cbn.
    + split; [constructor|done].
    + rewrite Forall_cons, <- IH. split.
      * by intros [-> ->]%app_eq_nil.
      * by intros [-> ->].
Qed.

Lemma search_flattens_witness :
  ∃ q groups,
    ESearch (collection MemStore.engine) [q] "vector" search_params 5
      ["text"; "document_id"] (Return groups)
      ∈ (search (MemStore.mem 2 true) MemStore.engine "cc" 5 []).2 ∧
    [] = format_hit <$> concat groups.
Proof.
  destruct (search_flattens (MemStore.mem 2 true) MemStore.engine "cc" 5 []
              [] eq_refl) as (q & groups & Hev & Hres & _).
  exists q, groups. split; [exact Hev|exact Hres].
Defined.

(** ** All methods *)

Lemma not_elem_of_uuid_events lvl msg (ids : list string) :
  ELog lvl msg ∉ EUuid4 <$> ids.
Proof. by intros (? & ? & _)%list_elem_of_fmap. Qed.

(** Settle a [logs_outcome] goal on a list of known events. *)
Ltac by_logs :=
  cbn [fst snd]; first
    [ by eexists
    | split; [|by eexists];
      intros msg; rewrite ?elem_of_cons, elem_of_nil;
      intros H; destruct_or?; done ].

(** X11: [embed_texts], [store_embeddings], [search], [_connect_milvus]
    and [_init_collection] log their outcome.  When one of them raises, the
    last thing it did was to write an error line carrying the exception;
    when it returns, it wrote no error line and ended on an info line. *)
Theorem methods_log_outcome env settings self :
  (∀ texts, logs_outcome (embed_texts env self texts)) ∧
  (∀ embeddings texts metadata,
     logs_outcome (store_embeddings env self embeddings texts metadata)) ∧
  (∀ query_text top_k, logs_outcome (search env self query_text top_k)) ∧
  logs_outcome (_connect_milvus env settings) ∧
  (∀ dim, logs_outcome (_init_collection env settings dim)).
Proof.
  split_and!; intros; intros tr.
  - rewrite embed_texts_run. destruct (env_encode _ _ _ _); by_logs.
  - rewrite store_embeddings_run. unfold store_outcome.
    destruct (env_insert _ _ _ _) as [[]|e1];
      [destruct (env_flush _ _ _) as [[]|e2]|]; cbn [fst snd];
      rewrite last_app; cbn [last]; [|by eexists..].
    split; [|by eexists]. intros msg.
    rewrite elem_of_app, !elem_of_cons, elem_of_nil.
    intros [H|H]; [by apply not_elem_of_uuid_events in H|].
    destruct_or?; done.
  - unfold search, try_except, bind. rewrite embed_texts_run.
    destruct (env_encode _ _ _ _) as [[|q vs]|e1]; unfold_run; cbn;
      [by eexists| |by eexists].
    destruct (env_search _ _ _ _ _ _ _ _); by_logs.
  - unfold_run. cbn. destruct (env_connect _ _ _ _ _); by_logs.
  - unfold_run. cbn -[collection_fields]. case_answers; by_logs.
Qed.

Lemma methods_log_outcome_witness :
  ∃ s, last (search (MemStore.mem 2 true) MemStore.engine "cc" 0 []).2
       = Some (ELog ERROR
                 [FStr s;
                  FExn (Exception "ParamError" "limit must be positive")]).
Proof.
  exact (proj1 (proj2 (proj2 (methods_log_outcome (MemStore.mem 2 true)
           MemStore.conf MemStore.engine))) "cc" 0 []).
Defined.

Lemma kinds_within_app ks d1 d2 :
  kinds_within ks (d1 ++ d2) ↔ kinds_within ks d1 ∧ kinds_within ks d2.
Proof. apply Forall_app. Qed.

Lemma kinds_within_uuid_events ks (ids : list string) :
  KUuid4 ∈ ks → kinds_within ks (EUuid4 <$> ids).
Proof. intros H. apply Forall_fmap, Forall_forall. by intros s _. Qed.

(** Settle a goal on the kinds or the number of known events. *)
Ltac by_events :=
  first [ by apply (bool_decide_unpack _); vm_compute
        | by vm_compute; lia ].

(** X12: no method repeats a call.  [embed_texts] asks the model once;
    [store_embeddings] draws one id per text, calls insert once and flush
    at most once; [_init_collection] checks existence once and creates or
    attaches, builds the index and loads at most once each;
    [_connect_milvus] connects once and [close] disconnects once. *)
Theorem methods_call_once env settings self :
  (∀ texts tr, count_calls KEncode (embed_texts env self texts tr).2 = 1%nat) ∧
  (∀ embeddings texts metadata tr,
     let d := (store_embeddings env self embeddings texts metadata tr).2 in
     count_calls KUuid4 d = length texts ∧
     count_calls KInsert d = 1%nat ∧
     (count_calls KFlush d ≤ 1)%nat) ∧
  (∀ dim tr,
     let d := (_init_collection env settings dim tr).2 in
     count_calls KHasCollection d = 1%nat ∧
     (count_calls KCollection d ≤ 1)%nat ∧
     (count_calls KCreateIndex d ≤ 1)%nat ∧
     (count_calls KLoad d ≤ 1)%nat) ∧
  (∀ tr, count_calls KConnect (_connect_milvus env settings tr).2 = 1%nat) ∧
  (∀ tr, count_calls KDisconnect (close env tr).2 = 1%nat).
Proof.
  split_and!; intros.
  - rewrite embed_texts_run. destruct (env_encode _ _ _ _); by_events.
  - subst d. rewrite store_embeddings_run. unfold store_outcome.
    destruct (env_insert _ _ _ _) as [[]|e1];
      [destruct (env_flush _ _ _) as [[]|e2]|]; cbn [fst snd];
      rewrite !count_calls_app, !count_calls_uuid_events, length_uuid_draws;
      repeat match goal with
        | |- context [count_calls ?k (?a :: ?l)] =>
            let v := eval vm_compute in (count_calls k (a :: l)) in
            change (count_calls k (a :: l)) with v
        end;
      repeat case_decide; try done; lia.
  - subst d. unfold_run. cbn -[collection_fields].
    case_answers; split_and!; by_events.
  - unfold_run. cbn. destruct (env_connect _ _ _ _ _); by_events.
  - unfold_run. cbn. destruct (env_disconnect _ _ _); by_events.
Qed.

(** X13: each method stays within its own calls.  [embed_texts] only asks
    the model; [store_embeddings] only draws ids, inserts and flushes;
    [search] only asks the model and searches, so it never writes;
    [_connect_milvus] only connects, [_init_collection] only checks,
    creates or attaches, indexes and loads, and [close] only disconnects:
    it neither flushes nor releases the collection. *)
Theorem methods_stay_in_lane env settings self :
  (∀ texts tr,
     kinds_within [KEncode; KLog] (embed_texts env self texts tr).2) ∧
  (∀ embeddings texts metadata tr,
     kinds_within [KUuid4; KInsert; KFlush; KLog]
       (store_embeddings env self embeddings texts metadata tr).2) ∧
  (∀ query_text top_k tr,
     kinds_within [KEncode; KSearch; KLog]
       (search env self query_text top_k tr).2) ∧
  (∀ tr, kinds_within [KConnect; KLog] (_connect_milvus env settings tr).2) ∧
  (∀ dim tr,
     kinds_within [KHasCollection; KCollection; KCreateIndex; KLoad; KLog]
       (_init_collection env settings dim tr).2) ∧
  (∀ tr, kinds_within [KDisconnect; KLog] (close env tr).2).
Proof.
  split_and!; intros.
  - rewrite embed_texts_run. destruct (env_encode _ _ _ _); by_events.
  - rewrite store_embeddings_run. unfold store_outcome.
    destruct (env_insert _ _ _ _) as [[]|e1];
      [destruct (env_flush _ _ _) as [[]|e2]|]; cbn [fst snd];
      (apply kinds_within_app; split;
       [apply kinds_within_uuid_events; by_events|by_events]).
  - unfold search, try_except, bind. rewrite embed_texts_run.
    destruct (env_encode _ _ _ _) as [[|q vs]|e1]; unfold_run; cbn;
      [by_events| |by_events].
    destruct (env_search _ _ _ _ _ _ _ _); by_events.
  - unfold_run. cbn. destruct (env_connect _ _ _ _ _); by_events.
  - unfold_run. cbn -[collection_fields]. case_answers; by_events.
  - unfold_run. cbn. destruct (env_disconnect _ _ _); by_events.
Qed.

(** ** Composing the methods *)

(** X14: embedding texts and storing the result under the same texts, as
    the ingestion path does, meets the alignment [store_embeddings] relies
    on.  When the model is a function of the text and both calls succeed,
    there is one id per text and row [i] of the inserted batch holds the
    [i]-th id, the [i]-th text and the embedding of that text. *)
Theorem embed_then_store env self f texts metadata tr ids :
  encoder_contract env f (dimension self) →
  let run :=
    (vs <- embed_texts env self texts ;;
     store_embeddings env self vs texts metadata) tr in
  run.1 = Return ids →
  length ids = length texts ∧
  ∃ ents,
    EInsert (collection self) ents (Return ()) ∈ run.2 ∧
    length (rows ents) = length texts ∧
    ∀ i id, ids !! i = Some id →
      ∃ t, texts !! i = Some t ∧
        rows ents !! i =
          Some {| row_id := id;
                  row_document_id := metadata_document_id metadata;
                  row_text := t; row_vector := f t |}.
Proof.
  intros [_ Henc] run. subst run. unfold bind. rewrite embed_texts_run.
  destruct (env_encode _ _ _ _) as [vs|e] eqn:Hrun; [|done].
  apply Henc in Hrun as ->.
  destruct (store_embeddings _ _ _ _ _ _) as [r d] eqn:Hstore.
  cbn [fst snd]. intros ->.
  assert (length (f <$> texts) = length texts) as Hlen by apply length_fmap.
  match type of Hstore with
  | store_embeddings _ _ _ _ _ ?t = _ =>
      pose proof (store_embeddings_returns env self (f <$> texts) texts
                    metadata t ids Hlen) as Hret
  end.
  rewrite Hstore in Hret. cbn [fst snd] in Hret.
  destruct (Hret eq_refl) as (Hids & _ & ents & Hin & Hrows & Hrow).
  split; [done|]. exists ents. split_and!.
  - rewrite elem_of_app. by right.
  - by rewrite Hrows.
  - intros i id Hi. destruct (Hrow i id Hi) as (t & v & Ht & Hv & Hr).
    exists t. split; [done|].
    rewrite list_lookup_fmap, Ht in Hv. by injection Hv as <-.
Qed.

Lemma embed_then_store_witness :
  let run :=
    (vs <- embed_texts (MemStore.mem 2 true) MemStore.engine ["a"; "bbb"] ;;
     store_embeddings (MemStore.mem 2 true) MemStore.engine vs ["a"; "bbb"]
       {[ "document_id" := PStr "doc-1" ]}) [] in
  run.1 = Return ["uuid-0"; "uuid-1"] ∧
  length ["uuid-0"; "uuid-1"] = length ["a"; "bbb"].
Proof.
  split; [reflexivity|].
  exact (proj1 (embed_then_store (MemStore.mem 2 true)
    {| model := model MemStore.engine; dimension := 2;
       collection := collection MemStore.engine |}
    (MemStore.toy_embedding 2) ["a"; "bbb"]
    {[ "document_id" := PStr "doc-1" ]} [] ["uuid-0"; "uuid-1"]
    (mem_encoder_contract 2 true) eq_refl)).
Defined.

(** The run of [close], by the answer of [disconnect]. *)
Lemma close_run env tr :
  let r := env_disconnect env tr "default" in
  close env tr =
    (Return (),
     [EDisconnect "default" r;
      match r with
      | Return _ => ELog INFO [FStr "Disconnected from Milvus"]
      | Raise e =>
          ELog ERROR [FStr "Error disconnecting from Milvus: "; FExn e]
      end]).
Proof. unfold_run. cbn. by destruct (env_disconnect _ _ _). Qed.

(** The arguments of the store's search that [search] fixes. *)
Lemma search_call_constants env self query_text top_k tr
  c data anns sp limit outs r :
  ESearch c data anns sp limit outs r
    ∈ (search env self query_text top_k tr).2 →
  anns = "vector" ∧ sp = search_params ∧ outs = ["text"; "document_id"].
Proof.
  unfold search, try_except, bind. rewrite embed_texts_run.
  destruct (env_encode _ _ _ _) as [[|q vs]|e1]; unfold_run; cbn;
    [|destruct (env_search _ _ _ _ _ _ _ _) as [groups|e2]; cbn|];
    rewrite !elem_of_cons, elem_of_nil; intros H; destruct_or?; try done;
    by inversion H.
Qed.

(** X16: what [_init_collection] creates is what [search] queries.  The
    schema it sends has the four fields [id], [document_id], [text],
    [vector], with [id] the only primary key and [vector] the only vector
    field, of the configured dimension; the index is built on that vector
    field; and [search] queries that field with the index's metric and
    asks only for fields the schema declares. *)
Theorem schema_agreement env settings self dim query_text top_k tr tr' :
  ∀ name schema r,
    ECollection name (Some schema) r
      ∈ (_init_collection env settings dim tr).2 →
    fs_name <$> cs_fields schema = ["id"; "document_id"; "text"; "vector"] ∧
    fs_name <$> filter (λ f, fs_is_primary f = true) (cs_fields schema)
      = ["id"] ∧
    field_names FLOAT_VECTOR schema = ["vector"] ∧
    (∀ f, f ∈ cs_fields schema → fs_dtype f = FLOAT_VECTOR →
          fs_dim f = Some dim) ∧
    (∀ c field p r',
       ECreateIndex c field p r' ∈ (_init_collection env settings dim tr).2 →
       field_names FLOAT_VECTOR schema = [field] ∧
       ∀ c' data anns sp limit outs r'',
         ESearch c' data anns sp limit outs r''
           ∈ (search env self query_text top_k tr').2 →
         anns = field ∧ sp_metric_type sp = ip_metric_type p ∧
         outs ⊆ fs_name <$> cs_fields schema).
Proof.
  intros name schema r Hcreate.
  assert (schema = {| cs_fields := collection_fields dim;
                      cs_description := "Document embeddings" |}) as ->.
  { revert Hcreate. unfold_run. cbn -[collection_fields]. case_answers;
      rewrite ?elem_of_cons, elem_of_nil; intros H; destruct_or?;
      by simplify_eq. }
  split_and!; [done..| |].
  - intros f. unfold collection_fields. cbn [cs_fields].
    rewrite !elem_of_cons, elem_of_nil.
    intros H; destruct_or?; subst; done.
  - intros c field p r' Hindex.
    assert (field = "vector" ∧ p = index_params) as [-> ->].
    { revert Hindex. clear. unfold_run. cbn -[collection_fields].
      case_answers; rewrite ?elem_of_cons, elem_of_nil; intros H;
        destruct_or?; by simplify_eq. }
    split; [done|]. intros c' data anns sp limit outs r'' Hs.
    destruct (search_call_constants _ _ _ _ _ _ _ _ _ _ _ _ Hs)
      as (-> & -> & ->).
    split_and!; [done..|]. intros x Hx.
    rewrite !elem_of_cons, elem_of_nil in Hx.
    destruct_or?; subst; try done; apply (bool_decide_unpack _);
      by vm_compute.
Qed.

Lemma schema_agreement_witness :
  field_names FLOAT_VECTOR
    {| cs_fields := collection_fields 384;
       cs_description := "Document embeddings" |} = ["vector"].
Proof.
  refine (proj1 (proj2 (proj2 (schema_agreement (MemStore.mem 384 true)
    MemStore.conf MemStore.engine 384 "cc" 1 [] [] "documents" _
    (Return {| coll_name := "documents" |}) _)))).
  apply list_elem_of_lookup. exists 1%nat. reflexivity.
Defined.

(** X15: teardown after setup.  After a successful [__init__], [close]
    returns normally whatever [disconnect] answers; it disconnects the
    alias that [__init__] connected, once, as the last call of the whole
    run, and writes an error line exactly when [disconnect] raised. *)
Theorem init_then_close env settings tr engine :
  (__init__ env settings tr).1 = Return engine →
  let run := (__init__ env settings ;;; close env) tr in
  let r := env_disconnect env (tr ++ (__init__ env settings tr).2)
             "default" in
  run.1 = Return () ∧
  (∃ line,
     run.2 = (__init__ env settings tr).2 ++ [EDisconnect "default" r; line] ∧
     (line = ELog INFO [FStr "Disconnected from Milvus"] ∧ answer_exn r = None
      ∨ ∃ e, line = ELog ERROR [FStr "Error disconnecting from Milvus: ";
                                FExn e]
             ∧ r = Raise e)) ∧
  (∃ uri token, EConnect "default" uri token (Return ()) ∈ run.2) ∧
  count_calls KConnect run.2 = 1%nat ∧
  count_calls KDisconnect run.2 = 1%nat.
Proof.
  intros Hinit. cbn zeta.
  destruct (init_returns _ _ _ _ Hinit) as (_ & branch & Hbranch & Hd).
  assert ((__init__ env settings ;;; close env) tr =
    (Return (),
     (__init__ env settings tr).2 ++
     [EDisconnect "default"
        (env_disconnect env (tr ++ (__init__ env settings tr).2) "default");
      match env_disconnect env (tr ++ (__init__ env settings tr).2)
              "default" with
      | Return _ => ELog INFO [FStr "Disconnected from Milvus"]
      | Raise e =>
          ELog ERROR [FStr "Error disconnecting from Milvus: "; FExn e]
      end])) as Hrun.
  { unfold bind. destruct (__init__ env settings tr) as [r0 d0].
    cbn [fst snd] in *. subst r0. by rewrite close_run. }
  rewrite Hrun. cbn [fst snd]. split_and!; [done| | | |].
  - eexists. split; [done|].
    destruct (env_disconnect _ _ _) as [u|e]; [by left|right; by exists e].
  - exists (milvus_uri settings), (milvus_token settings).
    rewrite Hd, !elem_of_app, !elem_of_cons. auto.
  - rewrite Hd at 1. rewrite !count_calls_app.
    destruct Hbranch as [-> | ->]; destruct (env_disconnect _ _ _);
      by vm_compute.
  - rewrite Hd at 1. rewrite !count_calls_app.
    destruct Hbranch as [-> | ->]; destruct (env_disconnect _ _ _);
      by vm_compute.
Qed.

Lemma init_then_close_witness :
  let run := (__init__ (Faults.faulty 384 (Faults.only KDisconnect))
                MemStore.conf ;;;
              close (Faults.faulty 384 (Faults.only KDisconnect))) [] in
  run.1 = Return () ∧ count_calls KDisconnect run.2 = 1%nat.
Proof.
  destruct (init_then_close (Faults.faulty 384 (Faults.only KDisconnect))
              MemStore.conf [] MemStore.engine eq_refl)
    as (H1 & _ & _ & _ & H2).
  split; [exact H1|exact H2].
Defined.

(** X18: the engine's [dimension] is used to create the collection and
    nowhere else.  Two engines with the same model and the same collection
    embed, store and search alike whatever their dimensions, so no method
    rejects a vector for its length. *)
Theorem dimension_unused env self self' :
  model self = model self' → collection self = collection self' →
  (∀ texts tr, embed_texts env self texts tr = embed_texts env self' texts tr) ∧
  (∀ embeddings texts metadata tr,
     store_embeddings env self embeddings texts metadata tr =
     store_embeddings env self' embeddings texts metadata tr) ∧
  (∀ query_text top_k tr,
     search env self query_text top_k tr =
     search env self' query_text top_k tr).
Proof.
  intros Hm Hc. split_and!; intros.
  - by rewrite !embed_texts_run, Hm.
  - by rewrite !store_embeddings_run; unfold store_outcome; rewrite Hc.
  - unfold search, try_except, bind. rewrite !embed_texts_run, Hm, Hc. done.
Qed.

Lemma dimension_unused_witness :
  store_embeddings (MemStore.mem 384 true) MemStore.engine [[1%Q]] ["a"] ∅ [] =
  store_embeddings (MemStore.mem 384 true)
    {| model := model MemStore.engine; dimension := 1;
       collection := collection MemStore.engine |} [[1%Q]] ["a"] ∅ [].
Proof.
  apply (dimension_unused _ MemStore.engine
           {| model := model MemStore.engine; dimension := 1;
              collection := collection MemStore.engine |});
    reflexivity.
Defined.

(** * [verify_fixes.py] *)

Section VerifyFixesFacts.

Import VerifyFixes.
Context {W : Type}.

Lemma count_passed_length (results : list (string * bool)) :
  count_passed results = len (filter (λ p, p.2 = true) results).
Proof.
  unfold count_passed, len.
  induction (filter _ results) as [|p l IH]; [done|].
  cbn [fmap list_fmap foldr length]. rewrite IH. lia.
Qed.

Lemma count_passed_bounds (results : list (string * bool)) :
  0 ≤ count_passed results ≤ len results.
Proof.
  rewrite count_passed_length. unfold len.
  pose proof (length_filter (λ p : string * bool, p.2 = true) results). lia.
Qed.

Lemma count_passed_total (results : list (string * bool)) :
  count_passed results = len results ↔ Forall (λ p, p.2 = true) results.
Proof.
  rewrite count_passed_length. unfold len.
  induction results as [|[name b] results IH]; [by split|].
  rewrite Forall_cons, <- IH, filter_cons. cbn [snd].
  pose proof (length_filter (λ p : string * bool, p.2 = true) results).
  destruct b; cbn [length].
  - rewrite decide_True by done. cbn [length]. split; [|intros [_ ?]]; lia.
  - rewrite decide_False by done. split; [lia|by intros [? _]].
Qed.

Lemma print_statuses_run (results : list (string * bool)) (st : State W) :
  ∃ lines,
    length lines = length results ∧
    print_statuses results st =
      ((), {| out := out st ++ lines; world := world st |}).
Proof.
  revert st. induction results as [|[name b] results IH]; intros st.
  - exists []. split; [done|]. rewrite app_nil_r. by destruct st.
  - cbn [print_statuses]. unfold mbind, script_bind, print at 1.
    destruct (IH {| out := out st ++
                      ["  " +:+ (if b then "✅ PASS" else "❌ FAIL")
                       +:+ "  " +:+ name];
                    world := world st |}) as (lines & Hlen & ->).
    eexists (_ :: lines). split; [cbn [length]; by rewrite Hlen|].
    cbn [out world]. by rewrite <- app_assoc.
Qed.

Lemma count_failed (results : list (string * bool)) :
  len results - count_passed results
  = len (filter (λ p, p.2 = false) results).
Proof.
  rewrite count_passed_length. unfold len.
  induction results as [|[name b] results IH]; [done|].
  rewrite !filter_cons. cbn [snd].
  destruct b; cbn [length].
  - rewrite decide_True, decide_False by done. cbn [length]. lia.
  - rewrite decide_False, decide_True by done. cbn [length]. lia.
Qed.

(** X17: [main] runs all six tests, in the order of the calls and whatever
    the earlier ones returned.  With [passed] the number of tests that
    returned [True] and [failed] the number that did not, its last three
    lines are the total [passed]/6, a rule, and the verdict: when no test
    failed it returns 0 and the verdict announces that all verifications
    passed; otherwise it returns 1 and the verdict gives [failed], the
    number of failed tests. *)
Theorem main_exit_code
  (test_settings test_security test_llm_client test_embeddings
     test_embeddings_methods test_api_structure : W → bool * W)
  (st : State W) :
  let results :=
    (run_tests test_settings test_security test_llm_client test_embeddings
       test_embeddings_methods test_api_structure (after_header st)).1 in
  let run :=
    main test_settings test_security test_llm_client test_embeddings
      test_embeddings_methods test_api_structure st in
  let passed := len (filter (λ p, p.2 = true) results) in
  let failed := len (filter (λ p, p.2 = false) results) in
  results.*1 = ["Settings"; "Security"; "LLM Client"; "Embeddings";
                "Embedding Methods"; "API Structure"] ∧
  passed + failed = 6 ∧
  ∃ pre verdict,
    out run.2 =
      pre ++ ["  TOTAL: " +:+ pretty passed +:+ "/" +:+ pretty 6
              +:+ " tests passed";
              str_mul "=" 70 +:+ NL; verdict] ∧
    ((run.1 = 0 ∧ failed = 0 ∧ Forall (λ p, p.2 = true) results ∧
      verdict = all_passed_line) ∨
     (run.1 = 1 ∧ 1 ≤ failed ∧ Exists (λ p, p.2 = false) results ∧
      verdict = failed_line failed)).
Proof.
  cbn zeta. unfold main, run_tests, after_header.
  unfold mbind, script_bind, mret, script_ret, run_test, print.
  cbn [out world].
  destruct (test_settings _) as [r1 w1].
  destruct (test_security _) as [r2 w2].
  destruct (test_llm_client _) as [r3 w3].
  destruct (test_embeddings _) as [r4 w4].
  destruct (test_embeddings_methods _) as [r5 w5].
  destruct (test_api_structure _) as [r6 w6].
  cbn [out world fst]. split; [done|].
  set (results := [("Settings", r1); ("Security", r2); ("LLM Client", r3);
                   ("Embeddings", r4); ("Embedding Methods", r5);
                   ("API Structure", r6)]).
  destruct (print_statuses_run results
    {| out := (((((out st ++ [NL +:+ str_mul "=" 70]) ++
                   ["  VERIFICATION SCRIPT - Testing All Fixed Components"])
                  ++ [str_mul "=" 70 +:+ NL]) ++ [NL +:+ str_mul "=" 70])
                ++ ["  VERIFICATION SUMMARY"]) ++ [str_mul "=" 70];
       world := w6 |}) as (lines & _ & ->).
  cbn [out world].
  pose proof (count_passed_bounds results) as Hb.
  pose proof (count_passed_total results) as Ht.
  pose proof (count_failed results) as Hf.
  pose proof (count_passed_length results) as Hp.
  change (len results) with 6 in *.
  rewrite <- Hp, <- Hf. split; [lia|].
  case_bool_decide as Hall; cbn [fst snd out];
    match goal with
    | |- ∃ pre verdict, (((?b ++ [?a]) ++ [?t]) ++ [?c]) ++ [?v] = _ ∧ _ =>
        exists (b ++ [a]), v
    end;
    (split; [by rewrite <- !app_assoc|]).
  - left. split_and!; [done|lia| |done]. by apply Ht.
  - right. split_and!; [done|lia| |done].
    assert (¬ Forall (λ p : string * bool, p.2 = true) results) as HF
      by (by intros ?%Ht).
    apply not_Forall_Exists in HF; [|apply _].
    eapply Exists_impl; [exact HF|]. intros [? []] H; cbn in *; [|done].
    by destruct H.
Qed.

End VerifyFixesFacts.

Example main_all_pass :
  let pass (w : ()) := (true, w) in
  (VerifyFixes.main pass pass pass pass pass pass
     {| VerifyFixes.out := []; VerifyFixes.world := () |}).1 = 0.
Proof. reflexivity. Qed.

Example main_one_failure :
  let pass (w : ()) := (true, w) in
  let fail (w : ()) := (false, w) in
  let run := VerifyFixes.main pass pass fail pass pass pass
               {| VerifyFixes.out := []; VerifyFixes.world := () |} in
  run.1 = 1 ∧
  last (VerifyFixes.out run.2) = Some (VerifyFixes.failed_line 1) ∧
  VerifyFixes.out run.2 !! 8%nat = Some "  ❌ FAIL  LLM Client".
Proof. vm_compute. done. Qed.
